(** * Valuation toolkit: the DCF, DDM and comparables calculations

    A shallow embedding of [src/valuation/dcf.py], of the grid built by
    [src/visualizations/charts.py] and of the calculations that [src/app.py]
    performs inline (dividend discount models, market comparison, ticker
    parsing, peer scoring), with the properties the specification states
    about them.

    Numbers.  The program computes with binary floating point.  For the
    cash-flow and dividend calculations a number is an exact rational
    ([Q]): rounding error is outside that part of the model.  A division
    whose divisor is zero yields no finite number: on Python floats it
    raises [ZeroDivisionError], on numpy [float64] operands it evaluates to
    [inf] or [nan].  Both are modelled by [None]; a finite result [q] is
    [Some q].

    The peer scoring is embedded twice.  [Comps] is over the reals ([R]),
    with exact means and square roots; it carries the properties of the
    selection of rows and of the ranking, and what is stated of exact
    arithmetic.  [Comps64] is over binary64 floats, the [float64] of the
    columns, with every operation rounded as IEEE 754 prescribes; it
    carries the properties that depend on the value of a z-score, where
    the rounding of the mean matters. *)

From Stdlib Require Import ZArith QArith Qabs Qpower Qfield Qround.
From Stdlib Require Import Reals Lra.
From Stdlib Require Import List Bool Lia Lqa.
From Stdlib Require Import String Ascii.
From Stdlib Require Floats Uint63.
Import ListNotations.

(** ** Python built-ins the code relies on *)

Module Py.

(** [range(lo, hi)] *)
Definition range (lo hi : Z) : list Z :=
  map (fun k => (lo + Z.of_nat k)%Z) (seq 0 (Z.to_nat (hi - lo))).

(** [enumerate(l)], counting from [k] *)
Fixpoint enumerate_from {A : Type} (k : Z) (l : list A) : list (Z * A) :=
  match l with
  | [] => []
  | x :: l' => (k, x) :: enumerate_from (k + 1) l'
  end.

Definition enumerate {A : Type} (l : list A) : list (Z * A) :=
  enumerate_from 0 l.

(** [len(l)] *)
Definition len {A : Type} (l : list A) : Z := Z.of_nat (List.length l).

(** [x / y] on numbers: no finite result when [y] is zero. *)
Definition truediv (x y : Q) : option Q :=
  if Qeq_bool y 0 then None else Some (x / y).

(** [sum(l)]: a left fold starting from [0]. *)
Definition sum (l : list Q) : Q := fold_left Qplus l 0.

(** [l[-1]]: the last element; [None] stands for [IndexError]. *)
Definition last_item {A : Type} (l : list A) : option A :=
  match rev l with
  | [] => None
  | x :: _ => Some x
  end.

(** [x > y] on numbers *)
Definition gt (x y : Q) : bool := negb (Qle_bool x y).

(** Truthiness of an optional number: [None] and [0] are false. *)
Definition truthy (x : option Q) : bool :=
  match x with
  | None => false
  | Some q => negb (Qeq_bool q 0)
  end.

End Py.

(** ** An error monad for computations that may fail to give a number *)

Definition bind {A B : Type} (m : option A) (k : A -> option B) : option B :=
  match m with
  | None => None
  | Some a => k a
  end.

Notation "x <- m ;; k" := (bind m (fun x => k))
  (at level 61, m at next level, right associativity).

(** A list comprehension whose body may fail: the first failure aborts it. *)
Fixpoint traverse {A B : Type} (f : A -> option B) (l : list A) : option (list B) :=
  match l with
  | [] => Some []
  | x :: l' =>
      y <- f x ;;
      ys <- traverse f l' ;;
      Some (y :: ys)
  end.

(** Results are compared up to the equality of rationals. *)
Definition res_eq (a b : option Q) : Prop :=
  match a, b with
  | Some x, Some y => x == y
  | None, None => True
  | _, _ => False
  end.

Infix "=?=" := res_eq (at level 70, no associativity).

(** ** Python string methods, on ASCII strings *)

Module PyStr.

(** The ASCII characters that [str.strip] removes. *)
Definition is_space (c : ascii) : bool :=
  let n := nat_of_ascii c in
  ((9 <=? n) && (n <=? 13) || (28 <=? n) && (n <=? 32))%nat.

Fixpoint lstrip (s : string) : string :=
  match s with
  | EmptyString => EmptyString
  | String c s' => if is_space c then lstrip s' else s
  end.

Fixpoint rstrip (s : string) : string :=
  match s with
  | EmptyString => EmptyString
  | String c s' =>
      match rstrip s' with
      | EmptyString => if is_space c then EmptyString else String c EmptyString
      | r => String c r
      end
  end.

(** [s.strip()] *)
Definition strip (s : string) : string := rstrip (lstrip s).

Definition upper_char (c : ascii) : ascii :=
  let n := nat_of_ascii c in
  if ((97 <=? n) && (n <=? 122))%nat then ascii_of_nat (n - 32) else c.

(** [s.upper()] *)
Fixpoint upper (s : string) : string :=
  match s with
  | EmptyString => EmptyString
  | String c s' => String (upper_char c) (upper s')
  end.

(** [s.split(sep)] for a one-character separator: the pieces between the
    separators, empty pieces included. *)
Fixpoint split (sep : ascii) (s : string) : list string :=
  match s with
  | EmptyString => [EmptyString]
  | String c s' =>
      if Ascii.eqb c sep then EmptyString :: split sep s'
      else match split sep s' with
           | [] => [String c EmptyString]
           | piece :: pieces => String c piece :: pieces
           end
  end.

(** Truthiness of a string: the empty string is false. *)
Definition truthy (s : string) : bool :=
  match s with
  | EmptyString => false
  | String _ _ => true
  end.

End PyStr.

(** ** [src/app.py]: the ticker lists (lines 178 and 318) *)

Module Tickers.

(** [[t.strip().upper() for t in tickers.split(",")]] *)
Definition parsed (tickers : string) : list string :=
  map (fun t => PyStr.upper (PyStr.strip t)) (PyStr.split ","%char tickers).

(** [... [:5]] *)
Definition ticker_list (tickers : string) : list string :=
  firstn 5 (parsed tickers).

End Tickers.

(** ** [src/valuation/dcf.py] *)

Module Dcf.

Local Open Scope Q_scope.

Definition project_cash_flows (cash_flows growth_rate : Q) (years : Z) : list Q :=
  map (fun i => cash_flows * ((1 + growth_rate) ^ i)) (Py.range 1 (years + 1)).

(** The default horizon, [years=5]. *)
Definition default_years : Z := 5.

Definition calculate_terminal_value_gordon
    (fcf terminal_growth discount_rate : Q) : option Q :=
  Py.truediv (fcf * (1 + terminal_growth)) (discount_rate - terminal_growth).

Definition calculate_terminal_value_exit_multiple (fcf exit_multiple : Q) : Q :=
  fcf * exit_multiple.

Definition discounted_cash_flows
    (projected : list Q) (terminal discount_rate : Q) : option Q :=
  terms <- traverse
             (fun '(i, cf) => Py.truediv cf ((1 + discount_rate) ^ (i + 1)))
             (Py.enumerate projected) ;;
  t <- Py.truediv terminal ((1 + discount_rate) ^ Py.len projected) ;;
  Some (Py.sum terms + t).

End Dcf.

(** ** [src/visualizations/charts.py]: the sensitivity grid *)

Module Np.

Local Open Scope Q_scope.

(** [np.linspace(start, stop, num)] for [num >= 2]: [num] evenly spaced
    samples, both ends included. *)
Definition linspace (start stop : Q) (num : Z) : list Q :=
  let step := (stop - start) / inject_Z (num - 1) in
  map (fun k => start + inject_Z k * step) (Py.range 0 num).

(** [np.arange(start, stop, step)] on integers, for a positive [step]:
    [start, start + step, ...] below [stop]. *)
Definition arange (start stop step : Z) : list Z :=
  map (fun k => (start + Z.of_nat k * step)%Z)
      (seq 0 (Z.to_nat ((stop - start + step - 1) / step))).

End Np.

Module Charts.

Local Open Scope Q_scope.

(** The matrix [Z] that [render_sensitivity_heatmap] hands to the plot:
    one row per sampled terminal growth, one cell per sampled discount
    rate.  The three calculations are arguments, as in the source.  The
    samples are numpy [float64] values, so a division by zero inside a
    cell leaves [inf] or [nan] in that cell ([None] here) and the other
    cells are still computed. *)
Definition render_sensitivity_heatmap
    (latest_fcf discount_rate terminal_growth : Q)
    (project_cash_flows : Q -> Q -> Z -> list Q)
    (calculate_terminal_value : Q -> Q -> Q -> option Q)
    (discounted_cash_flows : list Q -> Q -> Q -> option Q)
    : list (list (option Q)) :=
  let rates :=
    Np.linspace (discount_rate - (3 # 100)) (discount_rate + (3 # 100)) 7 in
  let growths :=
    Np.linspace (terminal_growth - (1 # 100)) (terminal_growth + (1 # 100)) 5 in
  map (fun g =>
         map (fun r =>
                let projected :=
                  project_cash_flows latest_fcf g Dcf.default_years in
                last_cf <- Py.last_item projected ;;
                terminal <- calculate_terminal_value last_cf g r ;;
                discounted_cash_flows projected terminal r)
             rates)
      growths.

(** The grid of the DCF page (app.py, lines 160-163). *)
Definition sensitivity_grid
    (latest_fcf discount_rate terminal_growth : Q) : list (list (option Q)) :=
  render_sensitivity_heatmap latest_fcf discount_rate terminal_growth
    Dcf.project_cash_flows
    Dcf.calculate_terminal_value_gordon
    Dcf.discounted_cash_flows.

(** The matrix [Z] of [render_exit_multiple_heatmap]: one row per sampled
    exit multiple, one cell per sampled discount rate.  The cash flows are
    projected at a fixed 10% growth.  [exit_multiple] is the integer of the
    page's slider. *)
Definition render_exit_multiple_heatmap
    (latest_fcf discount_rate : Q) (exit_multiple : Z)
    (project_cash_flows : Q -> Q -> Z -> list Q)
    (calculate_terminal_value_exit_multiple : Q -> Q -> Q)
    (discounted_cash_flows : list Q -> Q -> Q -> option Q)
    : list (list (option Q)) :=
  let rates :=
    Np.linspace (discount_rate - (3 # 100)) (discount_rate + (3 # 100)) 7 in
  let multiples := Np.arange (exit_multiple - 5) (exit_multiple + 6) 2 in
  map (fun m =>
         map (fun r =>
                let projected :=
                  project_cash_flows latest_fcf (10 # 100) Dcf.default_years in
                last_cf <- Py.last_item projected ;;
                discounted_cash_flows
                  projected
                  (calculate_terminal_value_exit_multiple last_cf (inject_Z m))
                  r)
             rates)
      multiples.

(** The grid of the DCF page (app.py, lines 166-169). *)
Definition exit_multiple_grid
    (latest_fcf discount_rate : Q) (exit_multiple : Z) : list (list (option Q)) :=
  render_exit_multiple_heatmap latest_fcf discount_rate exit_multiple
    Dcf.project_cash_flows
    Dcf.calculate_terminal_value_exit_multiple
    Dcf.discounted_cash_flows.

End Charts.

(** ** [src/app.py]: the single-ticker DCF flow (lines 83-100) *)

Module App.

Local Open Scope Q_scope.

Inductive tv_method : Type :=
| GordonGrowth
| ExitMultiple (exit_multiple : Q).

(** [projected], [terminal] and [total_value].  [projected[-1]] cannot
    fail here, the projection having the default five periods. *)
Definition dcf_total_value
    (latest_fcf growth_rate terminal_growth discount_rate : Q)
    (method : tv_method) : option Q :=
  let projected :=
    Dcf.project_cash_flows latest_fcf growth_rate Dcf.default_years in
  last_cf <- Py.last_item projected ;;
  terminal <-
    match method with
    | GordonGrowth =>
        Dcf.calculate_terminal_value_gordon last_cf terminal_growth discount_rate
    | ExitMultiple exit_multiple =>
        Some (Dcf.calculate_terminal_value_exit_multiple last_cf exit_multiple)
    end ;;
  Dcf.discounted_cash_flows projected terminal discount_rate.

(** *** Comparison with the market price *)

Inductive label : Type := Undervalued | Overvalued.

(** Lines 119-129: the DCF flow compares the implied price per share,
    when both the market price and the share count are available. *)
Definition dcf_market_comparison
    (total_value : Q) (market_price shares_outstanding : option Q)
    : option label :=
  match market_price, shares_outstanding with
  | Some price, Some shares =>
      if Py.truthy market_price && Py.truthy shares_outstanding then
        implied_price <- Py.truediv total_value shares ;;
        Some (if Py.gt implied_price price then Undervalued else Overvalued)
      else None
  | _, _ => None
  end.

(** Lines 273-274 and 295-296: both dividend models compare the value
    they computed, when the market price is available. *)
Definition ddm_market_comparison
    (value : Q) (current_price : option Q) : option label :=
  match current_price with
  | Some price =>
      if Py.truthy current_price then
        Some (if Py.gt value price then Undervalued else Overvalued)
      else None
  | None => None
  end.

(** *** The dividend discount models (lines 267-299) *)

(** What the page shows for a dividend model. *)
Inductive ddm_output : Type :=
| Valued (value : Q) (comparison : option label)
    (* [st.success] with the value, and the comparison if any *)
| ModelError
    (* [st.error]: the discount rate must be greater than the growth rate *)
| NothingShown
| Raised.
    (* the computation stops on an exception ([ZeroDivisionError]) *)

Definition ddm_single_stage
    (dividend current_price : option Q) (g r : Q) : ddm_output :=
  match dividend with
  | Some d =>
      if Py.truthy dividend && Py.gt r g then
        match Py.truediv (d * (1 + g)) (r - g) with
        | Some value => Valued value (ddm_market_comparison value current_price)
        | None => Raised
        end
      else if Qle_bool r g then ModelError else NothingShown
  | None => if Qle_bool r g then ModelError else NothingShown
  end.

(** The value computed by lines 288-293; [dividends[-1]] needs at least
    one year, which the slider guarantees. *)
Definition multi_stage_intrinsic_value
    (dividend : Q) (div_years : Z)
    (initial_growth terminal_growth discount_rate : Q) : option Q :=
  let dividends :=
    map (fun i => dividend * ((1 + initial_growth) ^ i))
        (Py.range 1 (div_years + 1)) in
  last_dividend <- Py.last_item dividends ;;
  let terminal_dividend := last_dividend * (1 + terminal_growth) in
  terminal_value <-
    Py.truediv terminal_dividend (discount_rate - terminal_growth) ;;
  terms <- traverse
             (fun '(i, d) => Py.truediv d ((1 + discount_rate) ^ (i + 1)))
             (Py.enumerate dividends) ;;
  let present_value := Py.sum terms in
  present_terminal <-
    Py.truediv terminal_value ((1 + discount_rate) ^ div_years) ;;
  Some (present_value + present_terminal).

Definition ddm_multi_stage
    (dividend current_price : option Q) (div_years : Z)
    (initial_growth terminal_growth discount_rate : Q) : ddm_output :=
  match dividend with
  | Some d =>
      if Py.truthy dividend then
        match multi_stage_intrinsic_value
                d div_years initial_growth terminal_growth discount_rate with
        | Some intrinsic_value =>
            Valued intrinsic_value
                   (ddm_market_comparison intrinsic_value current_price)
        | None => Raised
        end
      else NothingShown
  | None => NothingShown
  end.

(** *** The multi-ticker comparison (lines 177-230) *)

(** What the loop reads of [get_financials(t)]: the latest free cash
    flow ([extract_latest_fcf]), the current price and the share count,
    each possibly absent. *)
Record financials : Type := {
  latest_fcf : option Q;
  currentPrice : option Q;
  sharesOutstanding : option Q
}.

(** A cell of the table: a number, or the string ["N/A"]. *)
Inductive number_cell : Type := Number (q : Q) | NotAvailable.
Inductive label_cell : Type := Label (l : label) | NoLabel.

Record comparison_row : Type := {
  Ticker : string;
  Market_Price : number_cell;
  Intrinsic_Gordon : number_cell;
  Intrinsic_Exit_Multiple : number_cell;
  Valuation_Gordon : label_cell;
  Valuation_Exit : label_cell
}.

(** [round(x, 2)]: to the nearest hundredth, ties to even. *)
Definition round_half_even (q : Q) : Z :=
  let f := Qfloor q in
  match Qcompare (q - inject_Z f) (1 # 2) with
  | Lt => f
  | Gt => (f + 1)%Z
  | Eq => if Z.even f then f else (f + 1)%Z
  end.

Definition round2 (q : Q) : Q := inject_Z (round_half_even (q * 100)) / 100.

(** [round(x, 2) if x else "N/A"] *)
Definition rounded_or_na (x : option Q) : number_cell :=
  match x with
  | Some q => if Py.truthy x then Number (round2 q) else NotAvailable
  | None => NotAvailable
  end.

(** ["Undervalued" if intrinsic and market and intrinsic > market else
    "Overvalued"] *)
Definition table_label (intrinsic market : option Q) : label :=
  match intrinsic, market with
  | Some i, Some m =>
      if Py.truthy intrinsic && Py.truthy market && Py.gt i m
      then Undervalued else Overvalued
  | _, _ => Overvalued
  end.

(** [value / shares if shares else None] *)
Definition per_share (value : Q) (shares : option Q) : option Q :=
  match shares with
  | Some n => if Py.truthy shares then Py.truediv value n else None
  | None => None
  end.

Definition not_available_row (t : string) : comparison_row :=
  {| Ticker := t;
     Market_Price := NotAvailable;
     Intrinsic_Gordon := NotAvailable;
     Intrinsic_Exit_Multiple := NotAvailable;
     Valuation_Gordon := NoLabel;
     Valuation_Exit := NoLabel |}.

Section Comparison.

(** The data provider; [None] when the call raises. *)
Variable get_financials : string -> option financials.

(** The [try] block: [None] when anything in it raises. *)
Definition try_row (t : string) : option comparison_row :=
  f <- get_financials t ;;
  fcf <- latest_fcf f ;;
  let growth := 10 # 100 in
  let discount := 10 # 100 in
  let exit_multiple := 12 in
  let proj := Dcf.project_cash_flows fcf growth Dcf.default_years in
  last_cf <- Py.last_item proj ;;
  term_gordon <-
    Dcf.calculate_terminal_value_gordon last_cf (2 # 100) discount ;;
  value_gordon <- Dcf.discounted_cash_flows proj term_gordon discount ;;
  let term_exit :=
    Dcf.calculate_terminal_value_exit_multiple last_cf exit_multiple in
  value_exit <- Dcf.discounted_cash_flows proj term_exit discount ;;
  let market := currentPrice f in
  let shares := sharesOutstanding f in
  let intrinsic_gordon := per_share value_gordon shares in
  let intrinsic_exit := per_share value_exit shares in
  Some {| Ticker := t;
          Market_Price := rounded_or_na market;
          Intrinsic_Gordon := rounded_or_na intrinsic_gordon;
          Intrinsic_Exit_Multiple := rounded_or_na intrinsic_exit;
          Valuation_Gordon := Label (table_label intrinsic_gordon market);
          Valuation_Exit := Label (table_label intrinsic_exit market) |}.

(** The state of the loop: the calls made to the provider so far, in
    order, and the rows appended to [comparison]. *)
Record loop_state : Type := {
  fetched : list string;
  comparison : list comparison_row
}.

Definition loop_body (st : loop_state) (t : string) : loop_state :=
  {| fetched := fetched st ++ [t];
     comparison :=
       comparison st ++ [match try_row t with
                         | Some row => row
                         | None => not_available_row t
                         end] |}.

(** [if tickers: ... for t in ticker_list: ...] *)
Definition compare_tickers (tickers : string) : loop_state :=
  let start := {| fetched := []; comparison := [] |} in
  if PyStr.truthy tickers
  then fold_left loop_body (Tickers.ticker_list tickers) start
  else start.

End Comparison.

(** *** The discount rate of the DCF page (lines 54-80) *)

(** A percentage slider: [st.slider(...) / 100]. *)
Definition pct (v : Z) : Q := inject_Z v / 100.

(** The assumed risk-free rate and long-term market return. *)
Definition rf : Q := 45 # 1000.
Definition market_return : Q := 9 # 100.

(** [rf + beta * (market_return - rf)], with
    [beta = info.get('beta', 1.0)]: [None] is a provider without the key. *)
Definition capm_discount_rate (beta : option Q) : Q :=
  let beta := match beta with Some b => b | None => 1 end in
  rf + beta * (market_return - rf).

Definition page_discount_rate
    (use_auto_wacc : bool) (beta : option Q) (manual_wacc : Z) : Q :=
  if use_auto_wacc then capm_discount_rate beta else pct manual_wacc.

(** *** The chart of the multi-stage model (lines 301-307) *)

(** [extended_dividends]: the high-growth dividends followed by five
    years at the terminal growth. *)
Definition extended_dividends
    (dividend : Q) (div_years : Z) (initial_growth terminal_growth : Q)
    : option (list Q) :=
  let dividends :=
    map (fun i => dividend * ((1 + initial_growth) ^ i))
        (Py.range 1 (div_years + 1)) in
  last_dividend <- Py.last_item dividends ;;
  Some (dividends
        ++ map (fun i => last_dividend * ((1 + terminal_growth) ^ i))
               (Py.range 1 6)).

(** The x axis, [list(range(1, div_years + 6))]. *)
Definition chart_years (div_years : Z) : list Z := Py.range 1 (div_years + 6).

End App.

(** ** [src/app.py]: peer scoring on valuation multiples (lines 334-375) *)

Module Comps.

Local Open Scope R_scope.

(** A cell of a numeric column once [pd.to_numeric(errors="coerce")] has
    run: a number, or [None] for NaN (a missing figure, the string
    ["N/A"], a column the row does not have). *)
Definition cell : Type := option R.

(** A value produced by the float arithmetic of the scoring. *)
Inductive float : Type :=
| Fin (x : R)
| NaN
| PInf
| NInf.

(** A row of [metrics_table]: the ticker and the numeric columns. *)
Record peer_row : Type := {
  Ticker : string;
  metrics : list (string * cell)
}.

(** [src/valuation/data.py], [get_valuation_multiples]: [info] is the
    provider's dictionary read at a key, [None] when the figure is absent
    or not a number. *)
Definition get_valuation_multiples (info : string -> cell)
    : list (string * cell) :=
  [ ("P/E Ratio (TTM)"%string, info "trailingPE"%string);
    ("Forward P/E"%string, info "forwardPE"%string);
    ("EV/EBITDA"%string, info "enterpriseToEbitda"%string);
    ("Price/Sales (TTM)"%string, info "priceToSalesTrailing12Months"%string);
    ("EV/Revenue"%string, info "enterpriseToRevenue"%string);
    ("EPS (TTM)"%string, info "trailingEps"%string) ].

Section MetricsTable.

(** The [info] dictionary of the data provider for a ticker; [None]
    when the call raises. *)
Variable get_financials : string -> option (string -> cell).

(** The state of the loop of lines 321-332: the calls made to the
    provider so far and the rows appended to [metrics_table].  The
    Sector and Error columns, which are not numeric, are left out. *)
Record loop_state : Type := {
  fetched : list string;
  metrics_table : list peer_row
}.

Definition loop_body (st : loop_state) (t : string) : loop_state :=
  {| fetched := fetched st ++ [t];
     metrics_table :=
       metrics_table st
       ++ [match get_financials t with
           | Some info =>
               {| Ticker := t; metrics := get_valuation_multiples info |}
           | None => {| Ticker := t; metrics := [] |}
           end] |}.

Definition collect_multiples (tickers : string) : loop_state :=
  let start := {| fetched := []; metrics_table := [] |} in
  if PyStr.truthy tickers
  then fold_left loop_body (Tickers.ticker_list tickers) start
  else start.

End MetricsTable.

(** [pd.DataFrame(metrics_table)]: the rows labelled 0, 1, 2, ... *)
Definition DataFrame : Type := list (nat * peer_row).

Definition pd_DataFrame (metrics_table : list peer_row) : DataFrame :=
  combine (seq 0 (List.length metrics_table)) metrics_table.

(** [df.loc[i, col]] *)
Definition at_column (row : peer_row) (col : string) : cell :=
  match find (fun kv => String.eqb (fst kv) col) (metrics row) with
  | Some (_, v) => v
  | None => None
  end.

(** [s.str.contains(pat)] for a pattern without special characters *)
Definition str_contains (pat s : string) : bool :=
  match String.index 0 pat s with
  | Some _ => true
  | None => false
  end.

(** [clean_df = df[~df['Ticker'].str.contains("Avg")]] *)
Definition clean_df (df : DataFrame) : DataFrame :=
  filter (fun '(_, row) => negb (str_contains "Avg" (Ticker row))) df.

(** A frame restricted to the selected columns. *)
Definition Frame : Type := list (nat * list cell).

(** [df[selected_metrics]] *)
Definition columns (selected_metrics : list string) (df : DataFrame) : Frame :=
  map (fun '(i, row) => (i, map (at_column row) selected_metrics)) df.

Definition notna (c : cell) : bool :=
  match c with
  | Some _ => true
  | None => false
  end.

(** [.dropna()]: a row with a NaN in any column is dropped. *)
Definition dropna (f : Frame) : Frame :=
  filter (fun '(_, cells) => forallb notna cells) f.

(** [valid_rows = clean_df[selected_metrics].dropna()] *)
Definition valid_rows (df : DataFrame) (selected_metrics : list string) : Frame :=
  dropna (columns selected_metrics (clean_df df)).

(** [.empty]: no row or no column. *)
Definition empty (width : nat) (f : Frame) : bool :=
  match f, width with
  | [], _ => true
  | _, O => true
  | _, _ => false
  end.

(** The column at position [j]. *)
Definition column (j : nat) (f : Frame) : list cell :=
  map (fun '(_, cells) => nth j cells None) f.

(** The numbers of a column, NaN skipped. *)
Fixpoint present (col : list cell) : list R :=
  match col with
  | [] => []
  | Some x :: col' => x :: present col'
  | None :: col' => present col'
  end.

Definition Rsum (xs : list R) : R := fold_right Rplus 0 xs.

(** [.mean()] of a column, exact: the sum over the count without
    rounding.  The rounded mean is [Comps64.mean]. *)
Definition mean (col : list cell) : cell :=
  match present col with
  | [] => None
  | xs => Some (Rsum xs / INR (List.length xs))
  end.

(** [.std()] of a column: the sample standard deviation ([ddof=1]), NaN
    with fewer than two numbers; exact, as [mean] is.  The rounded
    deviation is [Comps64.std]. *)
Definition std (col : list cell) : cell :=
  let xs := present col in
  match mean col with
  | None => None
  | Some m =>
      if (List.length xs <=? 1)%nat then None
      else Some (sqrt (Rsum (map (fun x => (x - m) * (x - m)) xs)
                       / INR (List.length xs - 1)))
  end.

(** [x - y] with NaN *)
Definition sub (x y : cell) : cell :=
  match x, y with
  | Some a, Some b => Some (a - b)
  | _, _ => None
  end.

(** [a / b] on numpy floats: a zero divisor gives NaN for [0/0] and an
    infinity of the sign of [a] otherwise. *)
Definition div (num den : cell) : float :=
  match num, den with
  | Some a, Some b =>
      if Req_dec_T b 0 then
        if Req_dec_T a 0 then NaN
        else if Rlt_dec 0 a then PInf else NInf
      else Fin (a / b)
  | _, _ => NaN
  end.

(** [z_scores = (valid_rows - valid_rows.mean()) / valid_rows.std()] *)
Definition z_scores (valid : Frame) : list (nat * list float) :=
  map (fun '(i, cells) =>
         (i, map (fun j => div (sub (nth j cells None) (mean (column j valid)))
                               (std (column j valid)))
                 (seq 0 (List.length cells))))
      valid.

(** [.fillna(0)] *)
Definition fillna0 (z : float) : float :=
  match z with
  | NaN => Fin 0
  | _ => z
  end.

Definition fadd (a b : float) : float :=
  match a, b with
  | NaN, _ | _, NaN => NaN
  | Fin x, Fin y => Fin (x + y)
  | PInf, NInf | NInf, PInf => NaN
  | PInf, _ | _, PInf => PInf
  | NInf, _ | _, NInf => NInf
  end.

(** [.sum(axis=1)] of one row: NaN entries are skipped. *)
Definition row_sum (zs : list float) : float :=
  fold_left (fun acc z => match z with NaN => acc | _ => fadd acc z end)
            zs (Fin 0).

(** [score = z_scores.fillna(0).sum(axis=1)], one aggregate per row
    label of [valid_rows]. *)
Definition score (valid : Frame) : list (nat * float) :=
  map (fun '(i, zs) => (i, row_sum (map fillna0 zs))) (z_scores valid).

(** The scoring of the page: nothing is computed when [valid_rows] is
    empty. *)
Definition score_peers
    (metrics_table : list peer_row) (selected_metrics : list string)
    : option (list (nat * float)) :=
  let df := pd_DataFrame metrics_table in
  let valid := valid_rows df selected_metrics in
  if empty (List.length selected_metrics) valid then None
  else Some (score valid).

(** [a < b] on floats; every comparison with NaN is false. *)
Definition flt_ltb (a b : float) : bool :=
  match a, b with
  | Fin x, Fin y => if Rlt_dec x y then true else false
  | NInf, Fin _ | NInf, PInf | Fin _, PInf => true
  | _, _ => false
  end.

(** [.idxmin()]: the label of the first smallest entry, NaN skipped. *)
Fixpoint idxmin_from (best : option (nat * float)) (s : list (nat * float))
    : option (nat * float) :=
  match s with
  | [] => best
  | (i, v) :: s' =>
      match v, best with
      | NaN, _ => idxmin_from best s'
      | _, None => idxmin_from (Some (i, v)) s'
      | _, Some (_, bv) =>
          if flt_ltb v bv then idxmin_from (Some (i, v)) s'
          else idxmin_from best s'
      end
  end.

Definition idxmin (s : list (nat * float)) : option nat :=
  option_map fst (idxmin_from None s).

(** [df.loc[i, "Ticker"]] *)
Definition loc_ticker (df : DataFrame) (i : nat) : option string :=
  option_map (fun p => Ticker (snd p)) (find (fun p => Nat.eqb (fst p) i) df).

(** [best_idx = score.idxmin()] and
    [best_ticker = clean_df.loc[best_idx, "Ticker"]] *)
Definition best_ticker
    (metrics_table : list peer_row) (selected_metrics : list string)
    : option string :=
  match score_peers metrics_table selected_metrics with
  | Some s =>
      match idxmin s with
      | Some best_idx => loc_ticker (clean_df (pd_DataFrame metrics_table)) best_idx
      | None => None
      end
  | None => None
  end.

End Comps.

(** ** [src/app.py]: the peer scoring in [float64] arithmetic (lines 368-374)

    The numeric columns of the table are numpy [float64] arrays after
    [pd.to_numeric].  This embedding of lines 368-374 computes on binary64
    floats, each operation rounded to nearest even: a cell is a float, NaN
    standing for a missing figure. *)

Module Comps64.

Import PrimFloat.
Local Open Scope float_scope.

(** A row of [metrics_table]: the ticker and the numeric columns. *)
Record peer_row : Type := {
  Ticker : string;
  metrics : list (string * float)
}.

(** [pd.DataFrame(metrics_table)]: the rows labelled 0, 1, 2, ... *)
Definition DataFrame : Type := list (nat * peer_row).

Definition pd_DataFrame (metrics_table : list peer_row) : DataFrame :=
  combine (seq 0 (List.length metrics_table)) metrics_table.

(** [df.loc[i, col]]: NaN for a column the row does not have. *)
Definition at_column (row : peer_row) (col : string) : float :=
  match find (fun kv => String.eqb (fst kv) col) (metrics row) with
  | Some (_, v) => v
  | None => nan
  end.

(** [clean_df = df[~df['Ticker'].str.contains("Avg")]] *)
Definition clean_df (df : DataFrame) : DataFrame :=
  filter (fun '(_, row) => negb (Comps.str_contains "Avg" (Ticker row))) df.

(** A frame restricted to the selected columns. *)
Definition Frame : Type := list (nat * list float).

(** [df[selected_metrics]] *)
Definition columns (selected_metrics : list string) (df : DataFrame) : Frame :=
  map (fun '(i, row) => (i, map (at_column row) selected_metrics)) df.

Definition notna (c : float) : bool := negb (is_nan c).

(** [.dropna()]: a row with a NaN in any column is dropped. *)
Definition dropna (f : Frame) : Frame :=
  filter (fun '(_, cells) => forallb notna cells) f.

(** [valid_rows = clean_df[selected_metrics].dropna()] *)
Definition valid_rows (df : DataFrame) (selected_metrics : list string) : Frame :=
  dropna (columns selected_metrics (clean_df df)).

(** [.empty]: no row or no column. *)
Definition empty (width : nat) (f : Frame) : bool :=
  match f, width with
  | [], _ => true
  | _, O => true
  | _, _ => false
  end.

(** The column at position [j]. *)
Definition column (j : nat) (f : Frame) : list float :=
  map (fun '(_, cells) => nth j cells nan) f.

(** A count of rows as a float (exact: a table has few rows). *)
Definition of_count (n : nat) : float :=
  of_uint63 (Uint63.of_Z (Z.of_nat n)).

Section Reductions.

(** The sum of the entries of an array, as the library computes it.  The
    order of the additions is the library's; the scoring is written for
    any, and [sum_in_order] below is the one that applies to the tables
    of the page. *)
Variable total : list float -> float.

(** [.mean()] of a column: the sum over the count.  The columns of
    [valid_rows] hold no NaN, so that no entry is skipped. *)
Definition mean (col : list float) : float :=
  total col / of_count (List.length col).

(** [.std()] of a column, the sample standard deviation ([ddof=1]): the
    square root of the sum of the squares of [avg - v] over [count - 1],
    where [avg] is the sum over the count; with fewer than two rows the
    count and the divisor are NaN. *)
Definition std (col : list float) : float :=
  let n := List.length col in
  let count := if (n <=? 1)%nat then nan else of_count n in
  let d := if (n <=? 1)%nat then nan else of_count (n - 1) in
  let avg := total col / count in
  let sqr := map (fun v => (avg - v) * (avg - v)) col in
  sqrt (total sqr / d).

(** [z_scores = (valid_rows - valid_rows.mean()) / valid_rows.std()] *)
Definition z_scores (valid : Frame) : list (nat * list float) :=
  map (fun '(i, cells) =>
         (i, map (fun j => (nth j cells nan - mean (column j valid))
                           / std (column j valid))
                 (seq 0 (List.length cells))))
      valid.

(** [.fillna(0)] *)
Definition fillna0 (z : float) : float := if is_nan z then 0 else z.

(** [score = z_scores.fillna(0).sum(axis=1)], one aggregate per row
    label of [valid_rows]. *)
Definition score (valid : Frame) : list (nat * float) :=
  map (fun '(i, zs) => (i, total (map fillna0 zs))) (z_scores valid).

(** The scoring of the page: nothing is computed when [valid_rows] is
    empty. *)
Definition score_peers
    (metrics_table : list peer_row) (selected_metrics : list string)
    : option (list (nat * float)) :=
  let df := pd_DataFrame metrics_table in
  let valid := valid_rows df selected_metrics in
  if empty (List.length selected_metrics) valid then None
  else Some (score valid).

End Reductions.


End Comps64.

(** ** Sample peer tables *)

Module Samples.

Import Comps.
Local Open Scope R_scope.
Local Open Scope string_scope.

(** Peer A has no EV/EBITDA figure; peers B and C have both metrics. *)
Definition peers_with_gap : list peer_row :=
  [ {| Ticker := "AAA"; metrics := [("EV/EBITDA", None); ("Forward P/E", Some 10)] |};
    {| Ticker := "BBB"; metrics := [("EV/EBITDA", Some 20); ("Forward P/E", Some 12)] |};
    {| Ticker := "CCC"; metrics := [("EV/EBITDA", Some 30); ("Forward P/E", Some 15)] |} ].

End Samples.

Module Samples64.

Import PrimFloat Comps64.
Local Open Scope float_scope.
Local Open Scope string_scope.




End Samples64.

(** ** A sample data provider *)

Module SampleProvider.

Local Open Scope string_scope.

(** A ticker with all its figures. *)
Definition aapl : App.financials :=
  {| App.latest_fcf := Some 100%Q;
     App.currentPrice := Some 10%Q;
     App.sharesOutstanding := Some 100%Q |}.

(** A ticker without a market price. *)
Definition unlisted : App.financials :=
  {| App.latest_fcf := Some 100%Q;
     App.currentPrice := None;
     App.sharesOutstanding := Some 100%Q |}.

Definition get_financials (t : string) : option App.financials :=
  if String.eqb t "AAPL" then Some aapl
  else if String.eqb t "UNLISTED" then Some unlisted
  else None.

End SampleProvider.

(** ** [src/valuation/data.py]: the latest free cash flow *)

Module Data.

Local Open Scope Q_scope.

(** The cash-flow statement: the row of figures under an index label,
    most recent first, [None] when the label is not in the index. *)
Definition cashflow_frame : Type := string -> option (list Q).

Inductive fcf_result : Type :=
| Value (v : Q)
| NoValue        (* the function returns [None] *)
| IndexError.    (* [row[0]] on a row without figures, outside the [try] *)

Definition possible_keys : list string :=
  [ "Total Cash From Operating Activities"%string;
    "Operating Cash Flow"%string;
    "Net cash provided by operating activities"%string ].

(** The loop over [possible_keys]: the row of the first key in the index. *)
Fixpoint first_row (cashflow_df : cashflow_frame) (keys : list string)
    : option (list Q) :=
  match keys with
  | [] => None
  | key :: keys' =>
      match cashflow_df key with
      | Some row => Some row
      | None => first_row cashflow_df keys'
      end
  end.

Definition extract_latest_fcf (cashflow_df : cashflow_frame) : fcf_result :=
  match first_row cashflow_df possible_keys with
  | Some row =>
      match row with
      | v :: _ => Value v
      | [] => IndexError
      end
  | None =>
      (* the [try] block: any exception gives [None] *)
      match (op_row <- cashflow_df "Operating Cash Flow"%string ;;
             op_cf <- hd_error op_row ;;
             capex_row <- cashflow_df "Capital Expenditures"%string ;;
             capex <- hd_error capex_row ;;
             Some (op_cf - Qabs capex)) with
      | Some v => Value v
      | None => NoValue
      end
  end.

End Data.

(** ** The formulas of the specification

    Written from the specification's words, to be compared with the
    definitions above: the present value
    [PV = sum_{i=1..n} CF_i / (1+r)^i + TV / (1+r)^n], the value of the
    multi-stage dividend model and the labelling rule. *)

Module Spec.

Local Open Scope Q_scope.

(** [big_sum f n] is [f 1 + ... + f n]. *)
Fixpoint big_sum (f : Z -> Q) (n : nat) : Q :=
  match n with
  | O => 0
  | S m => big_sum f m + f (Z.of_nat (S m))
  end.

(** [CF_i], the cash flow of period [i], counted from 1. *)
Definition period (CF : list Q) (i : Z) : Q := nth (Z.to_nat (i - 1)) CF 0.

Definition present_value (CF : list Q) (TV r : Q) : Q :=
  big_sum (fun i => period CF i / (1 + r) ^ i) (List.length CF)
  + TV / (1 + r) ^ Z.of_nat (List.length CF).

(** The multi-stage dividend discount model: [y] dividends compounding at
    [g1], the terminal value [D_y * (1+g2) / (r-g2)] as of year [y]. *)
Definition ddm_multi_stage_value (D0 g1 : Q) (y : Z) (g2 r : Q) : Q :=
  let D := fun i : Z => D0 * (1 + g1) ^ i in
  big_sum (fun i => D i / (1 + r) ^ i) (Z.to_nat y)
  + (D y * (1 + g2) / (r - g2)) / (1 + r) ^ y.

(** The labelling rule: Undervalued exactly on a strict excess of the
    intrinsic value over the price, Overvalued otherwise. *)
Definition labels_by_strict_excess
    (l : App.label) (intrinsic price : Q) : Prop :=
  (l = App.Undervalued <-> price < intrinsic) /\
  (l = App.Overvalued <-> intrinsic <= price).

(** The value of a sensitivity cell at growth [g] and rate [r]: the
    growing perpetuity, where both [r - g] and [1 + r] are non-zero. *)
Definition perpetuity_cell (fcf g r : Q) : option Q :=
  if Qeq_bool r g || Qeq_bool (1 + r) 0 then None
  else Some (fcf * (1 + g) / (r - g)).

(** The value of an exit-multiple cell: five periods at 10% growth and
    [m] times the fifth cash flow, discounted at [r]. *)
Definition exit_cell (fcf : Q) (m : Z) (r : Q) : option Q :=
  if Qeq_bool (1 + r) 0 then None
  else Some (fcf * (big_sum (fun i => (11 # 10) ^ i / (1 + r) ^ i) 5
                    + (11 # 10) ^ 5 * inject_Z m / (1 + r) ^ 5)).

(** The value of one unit of latest cash flow: five periods at growth [g]
    discounted at [r], plus [K] times the fifth cash flow as terminal
    value. *)
Definition dcf_factor (g r K : Q) : Q :=
  big_sum (fun i => (1 + g) ^ i / (1 + r) ^ i) 5
  + (1 + g) ^ 5 * K / (1 + r) ^ 5.

(** The terminal value per unit of the last projected cash flow. *)
Definition terminal_factor (method : App.tv_method) (terminal_growth r : Q) : Q :=
  match method with
  | App.GordonGrowth => (1 + terminal_growth) / (r - terminal_growth)
  | App.ExitMultiple exit_multiple => exit_multiple
  end.

(** The number of occurrences of a character in a string. *)
Fixpoint occurrences (c : ascii) (s : string) : nat :=
  match s with
  | EmptyString => O
  | String c' s' => if Ascii.eqb c' c then S (occurrences c s') else occurrences c s'
  end.

(** The real number of a finite float (0 for the others). *)
Definition to_R (z : Comps.float) : R :=
  match z with
  | Comps.Fin x => x
  | _ => 0%R
  end.

End Spec.

(** ** Properties of the Python built-ins *)

Lemma range_length lo hi : List.length (Py.range lo hi) = Z.to_nat (hi - lo).
Proof. unfold Py.range. now rewrite length_map, length_seq. Qed.

Lemma range_nth_error lo hi k :
  (k < Z.to_nat (hi - lo))%nat ->
  nth_error (Py.range lo hi) k = Some (lo + Z.of_nat k)%Z.
Proof.
  intros Hk. unfold Py.range.
  rewrite nth_error_map, nth_error_seq.
  destruct (Nat.ltb_spec k (Z.to_nat (hi - lo))) as [_ | Hge]; [reflexivity | lia].
Qed.

Lemma range_snoc lo hi :
  (lo <= hi)%Z -> Py.range lo (hi + 1) = Py.range lo hi ++ [hi].
Proof.
  intros Hle. unfold Py.range.
  replace (Z.to_nat (hi + 1 - lo)) with (S (Z.to_nat (hi - lo))) by lia.
  rewrite seq_S, map_app. cbn [map]. do 2 f_equal. lia.
Qed.

Lemma last_item_snoc {A : Type} (l : list A) (x : A) :
  Py.last_item (l ++ [x]) = Some x.
Proof. unfold Py.last_item. now rewrite rev_unit. Qed.

Lemma gt_spec (x y : Q) : Py.gt x y = true <-> (y < x)%Q.
Proof.
  unfold Py.gt. rewrite negb_true_iff, <- not_true_iff_false, Qle_bool_iff.
  split; [apply Qnot_le_lt | apply Qlt_not_le].
Qed.

Lemma gt_false (x y : Q) : Py.gt x y = false <-> (x <= y)%Q.
Proof. unfold Py.gt. now rewrite negb_false_iff, Qle_bool_iff. Qed.

(** ** Compounding at a constant rate *)

Section Compounding.

Local Open Scope Q_scope.

Variables (c g : Q) (n : Z).

Let series : list Q := map (fun i => c * ((1 + g) ^ i)) (Py.range 1 (n + 1)).

Lemma compounding_length : List.length series = Z.to_nat n.
Proof. unfold series. rewrite length_map, range_length. f_equal. lia. Qed.

Lemma compounding_nth_error (i : Z) :
  (1 <= i <= n)%Z ->
  nth_error series (Z.to_nat (i - 1)) = Some (c * (1 + g) ^ i).
Proof.
  intros Hi. unfold series.
  rewrite nth_error_map, range_nth_error by lia.
  cbn [option_map].
  replace (1 + Z.of_nat (Z.to_nat (i - 1)))%Z with i by lia.
  reflexivity.
Qed.

Lemma compounding_period (i : Z) :
  (1 <= i <= n)%Z -> Spec.period series i = c * (1 + g) ^ i.
Proof.
  intros Hi. unfold Spec.period.
  apply nth_error_nth, compounding_nth_error, Hi.
Qed.

Lemma compounding_last :
  (1 <= n)%Z -> Py.last_item series = Some (c * (1 + g) ^ n).
Proof.
  intros Hn. unfold series.
  rewrite range_snoc, map_app by lia. cbn [map].
  apply last_item_snoc.
Qed.

End Compounding.

(** ** The cash-flow projector *)

(** C2. Projecting a base [C0] at growth [g] over a horizon [n] gives a
    list of length [n] whose element at index [i-1] is [C0 * (1+g)^i], for
    every [i] from 1 to [n]. *)
Theorem project_cash_flows_spec (C0 g : Q) (n : Z) :
  (0 < n)%Z ->
  List.length (Dcf.project_cash_flows C0 g n) = Z.to_nat n /\
  forall i : Z, (1 <= i <= n)%Z ->
    nth_error (Dcf.project_cash_flows C0 g n) (Z.to_nat (i - 1))
    = Some (C0 * (1 + g) ^ i)%Q.
Proof.
  intros Hn. unfold Dcf.project_cash_flows. split.
  - apply compounding_length.
  - apply compounding_nth_error.
Qed.

Lemma project_cash_flows_spec_witness :
  (0 < 5)%Z /\ (1 <= 3 <= 5)%Z /\
  List.length (Dcf.project_cash_flows 100 (1 # 10) 5) = 5%nat /\
  nth_error (Dcf.project_cash_flows 100 (1 # 10) 5) 2
  = Some (100 * (1 + (1 # 10)) ^ 3)%Q.
Proof.
  pose proof (project_cash_flows_spec 100 (1 # 10) 5 eq_refl) as [Hlen Hnth].
  split; [lia | split; [lia | split]].
  - exact Hlen.
  - assert (Hi : (1 <= 3 <= 5)%Z) by lia.
    exact (Hnth 3%Z Hi).
Defined.

(** ** Division and the error monad *)

Lemma truediv_some (x y : Q) : ~ y == 0 -> Py.truediv x y = Some (x / y)%Q.
Proof.
  intros Hy. unfold Py.truediv.
  destruct (Qeq_bool y 0) eqn:E; [| reflexivity].
  apply Qeq_bool_eq in E. contradiction.
Qed.

Lemma truediv_none (x y : Q) : y == 0 -> Py.truediv x y = None.
Proof. intros Hy. unfold Py.truediv. now rewrite (Qeq_eq_bool _ _ Hy). Qed.

Lemma traverse_total {A B : Type} (f : A -> option B) (g : A -> B) (l : list A) :
  (forall x, In x l -> f x = Some (g x)) ->
  traverse f l = Some (map g l).
Proof.
  induction l as [| x l IH]; intros Hf; [reflexivity |].
  simpl. rewrite (Hf x (or_introl eq_refl)). simpl.
  rewrite IH by (intros y Hy; apply Hf; now right). reflexivity.
Qed.

Lemma sum_snoc (l : list Q) (x : Q) : Py.sum (l ++ [x]) = (Py.sum l + x)%Q.
Proof. unfold Py.sum. now rewrite fold_left_app. Qed.

Lemma enumerate_from_snoc {A : Type} (k : Z) (l : list A) (x : A) :
  Py.enumerate_from k (l ++ [x])
  = Py.enumerate_from k l ++ [((k + Z.of_nat (List.length l))%Z, x)].
Proof.
  revert k. induction l as [| y l IH]; intros k; simpl.
  - now rewrite Z.add_0_r.
  - rewrite IH.
    replace (k + 1 + Z.of_nat (List.length l))%Z
      with (k + Z.pos (Pos.of_succ_nat (List.length l)))%Z by lia.
    reflexivity.
Qed.

Lemma big_sum_ext (f g : Z -> Q) (n : nat) :
  (forall i, (1 <= i <= Z.of_nat n)%Z -> f i == g i) ->
  Spec.big_sum f n == Spec.big_sum g n.
Proof.
  induction n as [| n IH]; intros Hfg; [reflexivity |].
  cbn [Spec.big_sum].
  rewrite IH by (intros i Hi; apply Hfg; lia).
  rewrite (Hfg (Z.of_nat (S n))) by lia. reflexivity.
Qed.

(** ** Discounting a series *)

Section Discounting.

Local Open Scope Q_scope.

Variable r : Q.
Hypothesis one_plus_r : ~ 1 + r == 0.

(** No period of the comprehension divides by zero. *)
Lemma discount_terms_total (l : list Q) (k : Z) :
  traverse (fun '(i, cf) => Py.truediv cf ((1 + r) ^ (i + 1)))
           (Py.enumerate_from k l)
  = Some (map (fun '(i, cf) => cf / (1 + r) ^ (i + 1)) (Py.enumerate_from k l)).
Proof.
  apply traverse_total. intros [i cf] _.
  apply truediv_some, Qpower_not_0, one_plus_r.
Qed.

(** The sum of the comprehension is the sum over the periods 1..n. *)
Lemma discount_terms_sum (l : list Q) :
  Py.sum (map (fun '(i, cf) => cf / (1 + r) ^ (i + 1)) (Py.enumerate l))
  == Spec.big_sum (fun i => Spec.period l i / (1 + r) ^ i) (List.length l).
Proof.
  unfold Py.enumerate.
  induction l as [| x l IH] using rev_ind; [reflexivity |].
  rewrite enumerate_from_snoc, map_app. cbn [map].
  rewrite sum_snoc, IH.
  rewrite length_app, Nat.add_1_r. cbn [Spec.big_sum].
  apply Qplus_comp.
  - apply big_sum_ext. intros i Hi. unfold Spec.period.
    rewrite app_nth1 by lia. reflexivity.
  - unfold Spec.period.
    replace (Z.to_nat (Z.of_nat (S (List.length l)) - 1)) with (List.length l) by lia.
    rewrite nth_middle.
    replace (0 + Z.of_nat (List.length l) + 1)%Z
      with (Z.of_nat (S (List.length l))) by lia.
    reflexivity.
Qed.

Lemma discounted_cash_flows_formula (CF : list Q) (TV : Q) :
  Dcf.discounted_cash_flows CF TV r =?= Some (Spec.present_value CF TV r).
Proof.
  unfold Dcf.discounted_cash_flows, Py.enumerate.
  rewrite discount_terms_total. cbn [bind].
  rewrite truediv_some by (apply Qpower_not_0, one_plus_r). cbn [bind res_eq].
  unfold Spec.present_value, Py.len.
  rewrite <- discount_terms_sum. reflexivity.
Qed.

End Discounting.

Lemma rate_above_minus_one (r : Q) : (-1 < r)%Q -> ~ (1 + r == 0)%Q.
Proof. intros Hr E. lra. Qed.

(** ** The Gordon Growth terminal value *)

Lemma gordon_defined (fcf g r : Q) :
  ~ r == g ->
  Dcf.calculate_terminal_value_gordon fcf g r = Some (fcf * (1 + g) / (r - g))%Q.
Proof.
  intros Hrg. unfold Dcf.calculate_terminal_value_gordon.
  apply truediv_some. intros E. apply Hrg. lra.
Qed.

Lemma gordon_undefined (fcf g r : Q) :
  r == g -> Dcf.calculate_terminal_value_gordon fcf g r = None.
Proof.
  intros Hrg. unfold Dcf.calculate_terminal_value_gordon.
  apply truediv_none. lra.
Qed.

(** C1. The specification asks for an error outcome whenever the discount
    rate does not exceed the terminal growth.  The function has no such
    guard: with a cash flow of 100, a terminal growth of 5% and a discount
    rate of 4.5% it returns the number -21000. *)
Theorem gordon_below_growth_returns_number :
  Dcf.calculate_terminal_value_gordon 100 (5 # 100) (45 # 1000)
  =?= Some (-21000)%Q.
Proof. vm_compute. reflexivity. Qed.

(** ** The discounting engine *)

(** C3, as the specification words it, asks for a present value of about
    1728.4 in the end-to-end example.  The code gives 1775 there. *)
Lemma end_to_end_is_not_1728 :
  exists pv : Q,
    App.dcf_total_value 100 (1 # 10) (2 # 100) (1 # 10) App.GordonGrowth = Some pv /\
    pv == 1775 /\
    ~ (Qabs (pv - (17284 # 10)) <= 40)%Q.
Proof.
  eexists. split; [vm_compute; reflexivity |]. split.
  - vm_compute. reflexivity.
  - apply Qlt_not_le. vm_compute. reflexivity.
Qed.

(** C3. For a non-empty series [CF], a terminal value [TV] and a discount
    rate [r > -1] the engine returns the sum over the periods [i = 1..n] of
    [CF_i / (1+r)^i], plus [TV / (1+r)^n].  In the end-to-end example
    ([C0 = 100], growth 10%, five periods, terminal growth 2%, discount rate
    10%) the series is [110, 121, 133.1, 146.41, 161.051] and the present
    value is 1775. *)
Theorem discounted_cash_flows_spec :
  (forall (CF : list Q) (TV r : Q),
      CF <> [] -> (-1 < r)%Q ->
      Dcf.discounted_cash_flows CF TV r =?= Some (Spec.present_value CF TV r)) /\
  Forall2 Qeq (Dcf.project_cash_flows 100 (1 # 10) 5)
          [110; 121; 1331 # 10; 14641 # 100; 161051 # 1000]%Q /\
  App.dcf_total_value 100 (1 # 10) (2 # 100) (1 # 10) App.GordonGrowth
  =?= Some 1775%Q.
Proof.
  split; [| split].
  - intros CF TV r _ Hr.
    apply discounted_cash_flows_formula, rate_above_minus_one, Hr.
  - vm_compute. repeat constructor.
  - vm_compute. reflexivity.
Qed.

Lemma discounted_cash_flows_spec_witness :
  [110; 121]%Q <> [] /\ (-1 < 1 # 10)%Q /\
  Dcf.discounted_cash_flows [110; 121]%Q 1000 (1 # 10)
  =?= Some (Spec.present_value [110; 121]%Q 1000 (1 # 10)).
Proof.
  split; [discriminate | split; [reflexivity |]].
  apply (proj1 discounted_cash_flows_spec); [discriminate | reflexivity].
Defined.

(** C4, as the specification words it, asks for an error outcome on an
    empty series.  The code returns a number there. *)
Lemma empty_series_is_not_rejected :
  exists v : Q,
    Dcf.discounted_cash_flows [] 1000 (1 # 10) = Some v /\ v == 1000.
Proof. eexists. split; [vm_compute; reflexivity | reflexivity]. Qed.

(** C4. With an empty cash-flow series the engine returns the terminal
    value undiscounted, whatever the discount rate. *)
Theorem discounted_cash_flows_empty (TV r : Q) :
  Dcf.discounted_cash_flows [] TV r =?= Some TV.
Proof.
  unfold Dcf.discounted_cash_flows. cbn.
  unfold Py.sum. cbn. field.
Qed.

(** ** The multi-stage dividend discount model *)

Lemma multi_stage_intrinsic_value_formula (D0 g1 g2 r : Q) (y : Z) :
  (1 <= y)%Z -> ~ r == g2 -> ~ (1 + r == 0)%Q ->
  exists v : Q,
    App.multi_stage_intrinsic_value D0 y g1 g2 r = Some v /\
    v == Spec.ddm_multi_stage_value D0 g1 y g2 r.
Proof.
  intros Hy Hrg Hr. unfold App.multi_stage_intrinsic_value. cbv zeta.
  rewrite compounding_last by exact Hy. cbn [bind].
  rewrite truediv_some by (intros E; apply Hrg; lra). cbn [bind].
  unfold Py.enumerate. rewrite (discount_terms_total r Hr). cbn [bind].
  rewrite truediv_some by (apply Qpower_not_0, Hr). cbn [bind].
  eexists. split; [reflexivity |].
  unfold Spec.ddm_multi_stage_value. cbv zeta.
  apply Qplus_comp; [| reflexivity].
  fold (Py.enumerate (map (fun i => D0 * (1 + g1) ^ i) (Py.range 1 (y + 1))))%Q.
  rewrite discount_terms_sum, compounding_length.
  apply big_sum_ext. intros i Hi.
  rewrite compounding_period by lia. reflexivity.
Qed.

(** C5. For a dividend [D0 > 0], a horizon [y >= 1] and a discount rate
    [r] above the terminal growth [g2] (and above -1, as every rate of the
    page's slider is), the multi-stage model shows the sum over
    [i = 1..y] of [D0*(1+g1)^i / (1+r)^i] plus
    [(D_y*(1+g2)/(r-g2)) / (1+r)^y], where [D_y = D0*(1+g1)^y].  With
    [D0 = 1], [g1 = 8%], [g2 = 3%], [r = 9%] and one year the value is 18,
    which is 17.997 to within 0.005. *)
Theorem ddm_multi_stage_spec :
  (forall (D0 g1 g2 r : Q) (y : Z) (price : option Q),
      (0 < D0)%Q -> (1 <= y)%Z -> (g2 < r)%Q -> (-1 < r)%Q ->
      exists v : Q,
        App.ddm_multi_stage (Some D0) price y g1 g2 r
        = App.Valued v (App.ddm_market_comparison v price) /\
        v == Spec.ddm_multi_stage_value D0 g1 y g2 r) /\
  (exists v : Q,
      App.ddm_multi_stage (Some 1%Q) None 1 (8 # 100) (3 # 100) (9 # 100)
      = App.Valued v None /\
      v == 18 /\ (Qabs (v - (17997 # 1000)) <= 5 # 1000)%Q).
Proof.
  split.
  - intros D0 g1 g2 r y price HD Hy Hg Hr.
    destruct (multi_stage_intrinsic_value_formula D0 g1 g2 r y Hy)
      as (v & Hv & Hform).
    + intros E. lra.
    + apply rate_above_minus_one, Hr.
    + exists v. split; [| exact Hform].
      unfold App.ddm_multi_stage, Py.truthy.
      destruct (Qeq_bool D0 0) eqn:E.
      * apply Qeq_bool_eq in E. lra.
      * cbn [negb]. now rewrite Hv.
  - eexists. split; [vm_compute; reflexivity |]. split.
    + vm_compute. reflexivity.
    + vm_compute. discriminate.
Qed.

Lemma ddm_multi_stage_spec_witness :
  (0 < 2)%Q /\ (1 <= 3)%Z /\ (3 # 100 < 9 # 100)%Q /\ (-1 < 9 # 100)%Q /\
  exists v : Q,
    App.ddm_multi_stage (Some 2%Q) (Some 40%Q) 3 (8 # 100) (3 # 100) (9 # 100)
    = App.Valued v (App.ddm_market_comparison v (Some 40%Q)) /\
    v == Spec.ddm_multi_stage_value 2 (8 # 100) 3 (3 # 100) (9 # 100).
Proof.
  repeat (split; [reflexivity || (intros E; discriminate E) |]).
  apply (proj1 ddm_multi_stage_spec); reflexivity || (intros E; discriminate E).
Defined.

(** ** The valuation label *)

Lemma strict_excess_label (intrinsic price : Q) :
  Spec.labels_by_strict_excess
    (if Py.gt intrinsic price then App.Undervalued else App.Overvalued)
    intrinsic price.
Proof.
  unfold Spec.labels_by_strict_excess.
  destruct (Py.gt intrinsic price) eqn:E.
  - apply gt_spec in E. repeat split; auto; try discriminate.
    intros Hle. exfalso. apply (Qlt_not_le _ _ E Hle).
  - apply gt_false in E. repeat split; auto; try discriminate.
    intros Hlt. exfalso. apply (Qlt_not_le _ _ Hlt E).
Qed.

Lemma truthy_some (q : Q) : ~ q == 0 -> Py.truthy (Some q) = true.
Proof.
  intros Hq. unfold Py.truthy.
  destruct (Qeq_bool q 0) eqn:E; [| reflexivity].
  apply Qeq_bool_eq in E. contradiction.
Qed.

Lemma ddm_single_stage_label d p g r v c :
  App.ddm_single_stage d p g r = App.Valued v c ->
  c = App.ddm_market_comparison v p.
Proof.
  unfold App.ddm_single_stage.
  destruct d as [d |]; [| destruct (Qle_bool r g); discriminate].
  destruct (Py.truthy (Some d) && Py.gt r g).
  - destruct (Py.truediv _ _); [| discriminate].
    intros H. injection H as <- <-. reflexivity.
  - destruct (Qle_bool r g); discriminate.
Qed.

Lemma ddm_multi_stage_label d p y g1 g2 r v c :
  App.ddm_multi_stage d p y g1 g2 r = App.Valued v c ->
  c = App.ddm_market_comparison v p.
Proof.
  unfold App.ddm_multi_stage.
  destruct d as [d |]; [| discriminate].
  destruct (Py.truthy (Some d)); [| discriminate].
  destruct (App.multi_stage_intrinsic_value _ _ _ _ _); [| discriminate].
  intros H. injection H as <- <-. reflexivity.
Qed.

(** C6. Wherever an intrinsic value is compared with an available market
    price (the two dividend models, and the DCF flow on the implied price
    per share), the label is Undervalued exactly when the intrinsic value
    is strictly greater than the price and Overvalued otherwise; when the
    two are equal the label is Overvalued. *)
Theorem valuation_label_spec (intrinsic price : Q) :
  ~ price == 0 ->
  (* the comparison of both dividend models *)
  (exists l, App.ddm_market_comparison intrinsic (Some price) = Some l /\
             Spec.labels_by_strict_excess l intrinsic price) /\
  (forall d g r c,
      App.ddm_single_stage d (Some price) g r = App.Valued intrinsic c ->
      exists l, c = Some l /\ Spec.labels_by_strict_excess l intrinsic price) /\
  (forall d y g1 g2 r c,
      App.ddm_multi_stage d (Some price) y g1 g2 r = App.Valued intrinsic c ->
      exists l, c = Some l /\ Spec.labels_by_strict_excess l intrinsic price) /\
  (* the DCF flow: [intrinsic] is the implied price [total_value / shares] *)
  (forall total_value shares,
      ~ shares == 0 -> intrinsic == (total_value / shares)%Q ->
      exists l,
        App.dcf_market_comparison total_value (Some price) (Some shares) = Some l /\
        Spec.labels_by_strict_excess l intrinsic price) /\
  (* the tie *)
  (intrinsic == price ->
   App.ddm_market_comparison intrinsic (Some price) = Some App.Overvalued).
Proof.
  intros Hp.
  assert (Hddm : exists l,
             App.ddm_market_comparison intrinsic (Some price) = Some l /\
             Spec.labels_by_strict_excess l intrinsic price).
  { unfold App.ddm_market_comparison. rewrite (truthy_some price Hp).
    eexists. split; [reflexivity | apply strict_excess_label]. }
  split; [exact Hddm |]. split; [| split; [| split]].
  - intros d g r c Hout. apply ddm_single_stage_label in Hout. subst c.
    exact Hddm.
  - intros d y g1 g2 r c Hout. apply ddm_multi_stage_label in Hout. subst c.
    exact Hddm.
  - intros total_value shares Hs Himplied.
    unfold App.dcf_market_comparison.
    rewrite (truthy_some price Hp), (truthy_some shares Hs). cbn [andb].
    rewrite (truediv_some total_value shares Hs). cbn [bind].
    eexists. split; [reflexivity |].
    pose proof (strict_excess_label (total_value / shares) price) as [HU HO].
    unfold Spec.labels_by_strict_excess. rewrite Himplied. split; assumption.
  - intros Heq. unfold App.ddm_market_comparison.
    rewrite (truthy_some price Hp).
    assert (E : Py.gt intrinsic price = false) by (apply gt_false; lra).
    now rewrite E.
Qed.

Lemma valuation_label_spec_witness :
  ~ (50 == 0)%Q /\
  App.ddm_market_comparison 50 (Some 50%Q) = Some App.Overvalued /\
  exists l,
    App.dcf_market_comparison 6000 (Some 50%Q) (Some 100%Q) = Some l /\
    Spec.labels_by_strict_excess l 60 50.
Proof.
  split; [discriminate |].
  split.
  - destruct (valuation_label_spec 50 50) as (_ & _ & _ & _ & Htie);
      [discriminate | apply Htie; reflexivity].
  - destruct (valuation_label_spec 60 50) as (_ & _ & _ & Hdcf & _);
      [discriminate | apply Hdcf; [discriminate | reflexivity]].
Defined.

(** ** Peer scoring *)

Section Scoring.

Import Comps.
Local Open Scope R_scope.

(** The z-score of a row at a selected position. *)
Lemma z_scores_entry (valid : Frame) (i : nat) (cells : list cell) (j : nat) :
  In (i, cells) valid -> (j < List.length cells)%nat ->
  exists zs,
    In (i, zs) (z_scores valid) /\
    nth_error zs j
    = Some (div (sub (nth j cells None) (mean (column j valid)))
                (std (column j valid))).
Proof.
  intros Hin Hj.
  exists (map (fun j => div (sub (nth j cells None) (mean (column j valid)))
                            (std (column j valid)))
              (seq 0 (List.length cells))).
  split.
  - unfold z_scores. apply in_map_iff. exists (i, cells). split; [reflexivity | exact Hin].
  - rewrite nth_error_map, nth_error_seq.
    rewrite (proj2 (Nat.ltb_lt _ _) Hj). reflexivity.
Qed.

Lemma z_scores_inv (valid : Frame) (i : nat) (zs : list float) :
  In (i, zs) (z_scores valid) ->
  exists cells,
    In (i, cells) valid /\
    zs = map (fun j => div (sub (nth j cells None) (mean (column j valid)))
                           (std (column j valid)))
             (seq 0 (List.length cells)).
Proof.
  unfold z_scores. intros Hin. apply in_map_iff in Hin.
  destruct Hin as ([i' cells] & Heq & Hin). injection Heq as <- <-.
  exists cells. split; [exact Hin | reflexivity].
Qed.

End Scoring.

Section ScoredRows.

Import Comps.
Local Open Scope R_scope.

(** Row labels are positions: a label names one row. *)
Lemma combine_seq_lookup (t : list peer_row) (start a : nat) (row : peer_row) :
  In (a, row) (combine (seq start (List.length t)) t) ->
  (start <= a)%nat /\ nth_error t (a - start) = Some row.
Proof.
  revert start. induction t as [| r t IH]; intros start; cbn; [tauto |].
  intros [Heq | Hin].
  - injection Heq as <- <-. rewrite Nat.sub_diag. split; [lia | reflexivity].
  - apply IH in Hin. destruct Hin as [Hle Hnth]. split; [lia |].
    replace (a - start)%nat with (S (a - S start)) by lia. exact Hnth.
Qed.

Lemma pd_DataFrame_label_unique (t : list peer_row) (a : nat) (r1 r2 : peer_row) :
  In (a, r1) (pd_DataFrame t) -> In (a, r2) (pd_DataFrame t) -> r1 = r2.
Proof.
  unfold pd_DataFrame. intros H1 H2.
  apply combine_seq_lookup in H1, H2.
  destruct H1 as [_ H1], H2 as [_ H2]. congruence.
Qed.

(** The rows of [valid_rows]: the rows of [clean_df] that have a number
    in every selected column. *)
Lemma valid_rows_spec (df : DataFrame) (selected : list string)
      (b : nat) (cells : list cell) :
  In (b, cells) (valid_rows df selected) <->
  exists rowB,
    In (b, rowB) (clean_df df) /\
    cells = map (at_column rowB) selected /\
    forall m, In m selected -> at_column rowB m <> None.
Proof.
  unfold valid_rows, dropna, columns. rewrite filter_In, in_map_iff. split.
  - intros [([i row] & Heq & Hin) Hall]. injection Heq as <- <-.
    exists row. split; [exact Hin | split; [reflexivity |]].
    intros m Hm E. rewrite forallb_forall in Hall.
    specialize (Hall (at_column row m) (in_map _ _ _ Hm)).
    rewrite E in Hall. discriminate.
  - intros (row & Hin & -> & Hall). split.
    + exists (b, row). split; [reflexivity | exact Hin].
    + apply forallb_forall. intros x Hx. apply in_map_iff in Hx.
      destruct Hx as (m & <- & Hm). specialize (Hall m Hm).
      destruct (at_column row m); [reflexivity | contradiction].
Qed.

Lemma valid_rows_width (df : DataFrame) (selected : list string)
      (b : nat) (cells : list cell) :
  In (b, cells) (valid_rows df selected) ->
  List.length cells = List.length selected.
Proof.
  intros H. apply valid_rows_spec in H. destruct H as (row & _ & -> & _).
  apply length_map.
Qed.

Lemma clean_df_incl (df : DataFrame) (b : nat) (row : peer_row) :
  In (b, row) (clean_df df) -> In (b, row) df.
Proof. unfold clean_df. rewrite filter_In. tauto. Qed.

Lemma score_labels (valid : Frame) : map fst (score valid) = map fst valid.
Proof.
  unfold score, z_scores. rewrite !map_map.
  apply map_ext. intros [i cells]. reflexivity.
Qed.

Lemma score_peers_some (t : list peer_row) (selected : list string)
      (s : list (nat * float)) :
  score_peers t selected = Some s ->
  s = score (valid_rows (pd_DataFrame t) selected).
Proof.
  unfold score_peers. cbv zeta.
  destruct (empty _ _); [discriminate | congruence].
Qed.

End ScoredRows.

Section PeerScoringClaims.

Import Comps.
Local Open Scope R_scope.

(** C7, as the specification words it, has a peer without a selected
    metric still scored, that metric counting for 0.  On the sample
    table, peer A (row 0) has no EV/EBITDA and receives no aggregate. *)
Lemma peer_with_gap_is_not_scored :
  exists s : list (nat * float),
    score_peers Samples.peers_with_gap
                ["EV/EBITDA"%string; "Forward P/E"%string] = Some s /\
    map fst s = [1%nat; 2%nat] /\
    ~ In 0%nat (map fst s).
Proof.
  eexists. split; [reflexivity |]. split.
  - rewrite score_labels. vm_compute. reflexivity.
  - rewrite score_labels. vm_compute. intros [H | [H | []]]; discriminate.
Qed.

(** C7. A peer A that lacks a selected metric X is dropped from the
    scoring: it receives no aggregate.  The peers that are scored are
    those of [clean_df] with a number for every selected metric, and the
    z-score of such a peer B for a metric is its deviation from the mean,
    over the standard deviation, both taken over the scored peers only. *)
Theorem missing_metric_excludes_peer
    (metrics_table : list peer_row) (selected_metrics : list string)
    (a : nat) (rowA : peer_row) (X : string) :
  let df := pd_DataFrame metrics_table in
  let valid := valid_rows df selected_metrics in
  In (a, rowA) df -> In X selected_metrics -> at_column rowA X = None ->
  ~ In a (map fst valid) /\
  (forall s, score_peers metrics_table selected_metrics = Some s ->
             ~ In a (map fst s)) /\
  (forall b cells,
      In (b, cells) valid <->
      exists rowB,
        In (b, rowB) (clean_df df) /\
        cells = map (at_column rowB) selected_metrics /\
        forall m, In m selected_metrics -> at_column rowB m <> None) /\
  (forall b cells j x,
      In (b, cells) valid -> nth_error cells j = Some (Some x) ->
      exists zs,
        In (b, zs) (z_scores valid) /\
        nth_error zs j
        = Some (div (sub (Some x) (mean (column j valid)))
                    (std (column j valid)))).
Proof.
  intros df valid HA HX Hmissing.
  assert (Hout : ~ In a (map fst valid)).
  { intros Hin. apply in_map_iff in Hin.
    destruct Hin as ([a' cells] & Heq & Hin). cbn in Heq. subst a'.
    apply valid_rows_spec in Hin. destruct Hin as (rowB & HB & _ & Hall).
    apply clean_df_incl in HB.
    rewrite (pd_DataFrame_label_unique _ _ _ _ HB HA) in Hall.
    exact (Hall X HX Hmissing). }
  split; [exact Hout |]. split; [| split].
  - intros s Hs. apply score_peers_some in Hs. subst s.
    rewrite score_labels. exact Hout.
  - intros b cells. apply valid_rows_spec.
  - intros b cells j x Hin Hj.
    destruct (z_scores_entry valid b cells j Hin) as (zs & Hzs & Hnth).
    + apply nth_error_Some. rewrite Hj. discriminate.
    + exists zs. split; [exact Hzs |].
      rewrite Hnth. do 3 f_equal. exact (nth_error_nth cells j None Hj).
Qed.

Lemma missing_metric_excludes_peer_witness :
  exists rowA,
    In (0%nat, rowA) (pd_DataFrame Samples.peers_with_gap) /\
    In "EV/EBITDA"%string ["EV/EBITDA"%string; "Forward P/E"%string] /\
    at_column rowA "EV/EBITDA"%string = None /\
    ~ In 0%nat
        (map fst (valid_rows (pd_DataFrame Samples.peers_with_gap)
                             ["EV/EBITDA"%string; "Forward P/E"%string])).
Proof.
  eexists. split; [left; reflexivity |]. split; [left; reflexivity |].
  split; [reflexivity |].
  eapply (missing_metric_excludes_peer
            Samples.peers_with_gap
            ["EV/EBITDA"%string; "Forward P/E"%string] 0 _ "EV/EBITDA"%string).
  - left. reflexivity.
  - left. reflexivity.
  - reflexivity.
Defined.

End PeerScoringClaims.

(** ** Peer scoring in [float64] arithmetic *)

(** *** Binary64 arithmetic: doubling, halving, and the sign of a sum *)

Section Binary64.

Import SpecFloat FloatOps.
Local Open Scope Z_scope.

















End Binary64.

(** *** The z-score of a value that equals the mean of its column *)

Section Float64Scoring.

Import PrimFloat SpecFloat FloatOps FloatAxioms.
Import Comps64.
Local Open Scope float_scope.













Variable total : list float -> float.







End Float64Scoring.

Section Float64Claims.

Import PrimFloat.
Import Comps64.
Local Open Scope float_scope.




End Float64Claims.

(** ** The sensitivity grid *)

(** The grid always has its five rows of seven cells. *)
Lemma sensitivity_grid_shape (latest_fcf discount_rate terminal_growth : Q) :
  List.length (Charts.sensitivity_grid latest_fcf discount_rate terminal_growth)
  = 5%nat /\
  Forall (fun row => List.length row = 7%nat)
         (Charts.sensitivity_grid latest_fcf discount_rate terminal_growth).
Proof.
  unfold Charts.sensitivity_grid, Charts.render_sensitivity_heatmap. cbv zeta.
  split.
  - rewrite length_map. reflexivity.
  - apply Forall_forall. intros row Hrow. apply in_map_iff in Hrow.
    destruct Hrow as (g & <- & _). rewrite length_map. reflexivity.
Qed.

(** C9. The specification asks that a cell whose sampled terminal growth
    reaches the sampled discount rate be a missing value.  Around a
    discount rate of 5% and a terminal growth of 5% the sampled rates are
    2%..8% and the sampled growths 4%..6%; the cells with a growth above the
    rate hold negative numbers, and only the cells where the two are equal
    are undefined. *)
Theorem sensitivity_grid_keeps_invalid_cells :
  Forall2 Qeq (Np.linspace ((5 # 100) - (3 # 100)) ((5 # 100) + (3 # 100)) 7)
          [2 # 100; 3 # 100; 4 # 100; 5 # 100; 6 # 100; 7 # 100; 8 # 100]%Q /\
  Forall2 Qeq (Np.linspace ((5 # 100) - (1 # 100)) ((5 # 100) + (1 # 100)) 5)
          [40 # 1000; 45 # 1000; 50 # 1000; 55 # 1000; 60 # 1000]%Q /\
  Forall2 (Forall2 res_eq)
    (Charts.sensitivity_grid 100 (5 # 100) (5 # 100))
    [ [Some (-5200); Some (-10400); None; Some 10400;
       Some 5200; Some (10400 # 3); Some 2600];
      [Some (-4180); Some (-20900 # 3); Some (-20900); Some 20900;
       Some (20900 # 3); Some 4180; Some (20900 # 7)];
      [Some (-3500); Some (-5250); Some (-10500); None;
       Some 10500; Some 5250; Some 3500];
      [Some (-21100 # 7); Some (-4220); Some (-21100 # 3); Some (-21100);
       Some 21100; Some (21100 # 3); Some 4220];
      [Some (-2650); Some (-10600 # 3); Some (-5300); Some (-10600);
       None; Some 10600; Some 5300] ]%Q.
Proof.
  split; [| split].
  - vm_compute. repeat constructor.
  - vm_compute. repeat constructor.
  - vm_compute. repeat (constructor; [repeat constructor |]). constructor.
Qed.

(** ** The ticker lists *)

Section TickerLoops.

Lemma try_row_ticker gf t row : App.try_row gf t = Some row -> App.Ticker row = t.
Proof.
  unfold App.try_row.
  destruct (gf t) as [f |]; [cbn [bind] | discriminate].
  destruct (App.latest_fcf f) as [fcf |]; [cbn [bind] | discriminate].
  cbv zeta.
  destruct (Py.last_item _) as [last_cf |]; [cbn [bind] | discriminate].
  destruct (Dcf.calculate_terminal_value_gordon _ _ _); [cbn [bind] | discriminate].
  destruct (Dcf.discounted_cash_flows _ _ _); [cbn [bind] | discriminate].
  destruct (Dcf.discounted_cash_flows _ _ _); [cbn [bind] | discriminate].
  intros H. injection H as <-. reflexivity.
Qed.

Lemma compare_loop gf (l : list string) (st : App.loop_state) :
  App.fetched (fold_left (App.loop_body gf) l st) = App.fetched st ++ l /\
  map App.Ticker (App.comparison (fold_left (App.loop_body gf) l st))
  = map App.Ticker (App.comparison st) ++ l.
Proof.
  revert st. induction l as [| t l IH]; intros st; cbn [fold_left].
  - now rewrite !app_nil_r.
  - destruct (IH (App.loop_body gf st t)) as [-> ->].
    cbn [App.loop_body App.fetched App.comparison].
    rewrite map_app, <- !app_assoc. cbn [map app].
    split; [reflexivity |].
    destruct (App.try_row gf t) as [row |] eqn:E.
    + now rewrite (try_row_ticker gf t row E).
    + reflexivity.
Qed.

Lemma collect_loop gf (l : list string) (st : Comps.loop_state) :
  Comps.fetched (fold_left (Comps.loop_body gf) l st) = Comps.fetched st ++ l /\
  map Comps.Ticker (Comps.metrics_table (fold_left (Comps.loop_body gf) l st))
  = map Comps.Ticker (Comps.metrics_table st) ++ l.
Proof.
  revert st. induction l as [| t l IH]; intros st; cbn [fold_left].
  - now rewrite !app_nil_r.
  - destruct (IH (Comps.loop_body gf st t)) as [-> ->].
    cbn [Comps.loop_body Comps.fetched Comps.metrics_table].
    rewrite map_app, <- !app_assoc. cbn [map app].
    split; [reflexivity |].
    destruct (gf t); reflexivity.
Qed.

End TickerLoops.

(** C10. In the multi-ticker DCF comparison and in the multiples
    comparison, the ticker list is the first five parsed tickers.  The data
    provider is called for exactly those, in order, and the table has one
    row for each of them; the tickers after the fifth are never fetched and
    get no row. *)
Theorem only_first_five_tickers_processed (tickers : string) :
  Tickers.ticker_list tickers = firstn 5 (Tickers.parsed tickers) /\
  (List.length (Tickers.ticker_list tickers) <= 5)%nat /\
  (forall get_financials,
      let st := App.compare_tickers get_financials tickers in
      App.fetched st
      = (if PyStr.truthy tickers then firstn 5 (Tickers.parsed tickers) else []) /\
      map App.Ticker (App.comparison st) = App.fetched st) /\
  (forall get_financials,
      let st := Comps.collect_multiples get_financials tickers in
      Comps.fetched st
      = (if PyStr.truthy tickers then firstn 5 (Tickers.parsed tickers) else []) /\
      map Comps.Ticker (Comps.metrics_table st) = Comps.fetched st).
Proof.
  split; [reflexivity |]. split; [apply firstn_le_length |]. split.
  - intros gf st. subst st. unfold App.compare_tickers. cbv zeta.
    destruct (PyStr.truthy tickers); [| split; reflexivity].
    destruct (compare_loop gf (Tickers.ticker_list tickers)
                {| App.fetched := []; App.comparison := [] |}) as [Hf Hc].
    rewrite Hf, Hc. split; reflexivity.
  - intros gf st. subst st. unfold Comps.collect_multiples. cbv zeta.
    destruct (PyStr.truthy tickers); [| split; reflexivity].
    destruct (collect_loop gf (Tickers.ticker_list tickers)
                {| Comps.fetched := []; Comps.metrics_table := [] |}) as [Hf Hc].
    rewrite Hf, Hc. split; reflexivity.
Qed.

(** * Further properties of the code *)

(** ** More on the projector and on the terminal value *)

Lemma range_In (lo hi i : Z) : In i (Py.range lo hi) <-> (lo <= i < hi)%Z.
Proof.
  unfold Py.range. rewrite in_map_iff. split.
  - intros (k & <- & Hk). apply in_seq in Hk. lia.
  - intros Hi. exists (Z.to_nat (i - lo)). split; [lia |].
    apply in_seq. lia.
Qed.

(** X1. A horizon of zero or less projects nothing. *)
Theorem project_cash_flows_no_period (C0 g : Q) (n : Z) :
  (n <= 0)%Z -> Dcf.project_cash_flows C0 g n = [].
Proof.
  intros Hn. unfold Dcf.project_cash_flows, Py.range.
  replace (Z.to_nat (n + 1 - 1)) with 0%nat by lia. reflexivity.
Qed.

Lemma project_cash_flows_no_period_witness :
  (-2 <= 0)%Z /\ Dcf.project_cash_flows 100 (1 # 10) (-2) = [].
Proof.
  split; [intros E; discriminate E |].
  apply project_cash_flows_no_period. intros E; discriminate E.
Defined.

(** X2. With a growth above -100% every projected cash flow has the sign of
    the base: positive, negative or zero with it. *)
Theorem project_cash_flows_sign (C0 g : Q) (n : Z) :
  (-1 < g)%Q ->
  (0 < C0 -> Forall (fun cf => 0 < cf) (Dcf.project_cash_flows C0 g n))%Q /\
  (C0 < 0 -> Forall (fun cf => cf < 0) (Dcf.project_cash_flows C0 g n))%Q /\
  (C0 == 0 -> Forall (fun cf => cf == 0) (Dcf.project_cash_flows C0 g n))%Q.
Proof.
  intros Hg.
  assert (Hpow : forall i, (0 < (1 + g) ^ i)%Q) by (intros i; apply Qpower_0_lt; lra).
  unfold Dcf.project_cash_flows.
  repeat split; intros HC; apply Forall_forall; intros cf Hcf;
    apply in_map_iff in Hcf; destruct Hcf as (i & <- & _);
    specialize (Hpow i).
  - apply Qmult_lt_0_compat; assumption.
  - setoid_replace (C0 * (1 + g) ^ i)%Q with (- ((- C0) * (1 + g) ^ i))%Q by ring.
    assert (0 < - C0 * (1 + g) ^ i)%Q by (apply Qmult_lt_0_compat; [lra | assumption]).
    lra.
  - rewrite HC. ring.
Qed.

Lemma project_cash_flows_sign_witness :
  (-1 < 1 # 10)%Q /\
  Forall (fun cf => cf < 0)%Q (Dcf.project_cash_flows (-100) (1 # 10) 5).
Proof.
  split; [reflexivity |].
  apply (project_cash_flows_sign (-100) (1 # 10) 5); reflexivity.
Defined.

(** X3. At a growth of -100% every projected cash flow is zero, the first
    period included. *)
Theorem project_cash_flows_total_decline (C0 g : Q) (n : Z) :
  g == -1 -> Forall (fun cf => cf == 0) (Dcf.project_cash_flows C0 g n).
Proof.
  intros Hg. unfold Dcf.project_cash_flows.
  apply Forall_forall. intros cf Hcf.
  apply in_map_iff in Hcf. destruct Hcf as (i & <- & Hi).
  apply range_In in Hi.
  assert (E : (1 + g == 0)%Q) by (rewrite Hg; reflexivity).
  rewrite E, Qpower_0 by lia. ring.
Qed.

Lemma project_cash_flows_total_decline_witness :
  (-1 == -1)%Q /\ Forall (fun cf => cf == 0) (Dcf.project_cash_flows 100 (-1) 5).
Proof.
  split; [reflexivity |].
  apply project_cash_flows_total_decline. reflexivity.
Defined.

(** The Gordon Growth terminal value is undefined exactly when the
    discount rate equals the terminal growth. *)
Lemma gordon_none_iff (fcf g r : Q) :
  Dcf.calculate_terminal_value_gordon fcf g r = None <-> r == g.
Proof.
  split.
  - intros Hnone. destruct (Qeq_dec r g) as [E | Hne]; [exact E |].
    rewrite (gordon_defined fcf g r Hne) in Hnone. discriminate.
  - apply gordon_undefined.
Qed.

(** X5. For a positive cash flow and a terminal growth above -100%, the
    Gordon Growth terminal value is positive exactly when the discount rate
    exceeds the growth, and negative when it is below. *)
Theorem gordon_sign (fcf g r : Q) :
  (0 < fcf)%Q -> (-1 < g)%Q -> ~ r == g ->
  exists tv : Q,
    Dcf.calculate_terminal_value_gordon fcf g r = Some tv /\
    ((0 < tv)%Q <-> (g < r)%Q) /\ ((tv < 0)%Q <-> (r < g)%Q).
Proof.
  intros Hf Hg Hne. eexists. split; [apply gordon_defined, Hne |].
  assert (Hnum : (0 < fcf * (1 + g))%Q) by (apply Qmult_lt_0_compat; lra).
  assert (Hden : ~ (r - g == 0)%Q) by (intros E; apply Hne; lra).
  set (tv := (fcf * (1 + g) / (r - g))%Q).
  assert (Htv : (tv * (r - g) == fcf * (1 + g))%Q) by (unfold tv; field; exact Hden).
  destruct (Q_dec r g) as [[Hlt | Hgt] | Heq]; [| | contradiction].
  - assert (Hneg : (tv < 0)%Q).
    { destruct (Qlt_le_dec tv 0) as [H | H]; [exact H | exfalso].
      assert (tv * (r - g) <= 0)%Q; [| lra].
      setoid_replace (tv * (r - g))%Q with (- (tv * (g - r)))%Q by ring.
      assert (0 <= tv * (g - r))%Q by (apply Qmult_le_0_compat; lra). lra. }
    split; split; intros; lra.
  - assert (Hpos : (0 < tv)%Q).
    { destruct (Qlt_le_dec 0 tv) as [H | H]; [exact H | exfalso].
      assert (tv * (r - g) <= 0)%Q; [| lra].
      setoid_replace (tv * (r - g))%Q with (- ((- tv) * (r - g)))%Q by ring.
      assert (0 <= - tv * (r - g))%Q by (apply Qmult_le_0_compat; lra). lra. }
    split; split; intros; lra.
Qed.

Lemma gordon_sign_witness :
  (0 < 100)%Q /\ (-1 < 5 # 100)%Q /\ ~ (45 # 1000) == (5 # 100) /\
  exists tv : Q,
    Dcf.calculate_terminal_value_gordon 100 (5 # 100) (45 # 1000) = Some tv /\
    (tv < 0)%Q.
Proof.
  split; [reflexivity |]. split; [reflexivity |]. split; [discriminate |].
  destruct (gordon_sign 100 (5 # 100) (45 # 1000)) as (tv & Htv & _ & Hneg);
    [reflexivity | reflexivity | discriminate |].
  exists tv. split; [exact Htv | apply Hneg; reflexivity].
Defined.

(** ** More on the discounting engine *)

(** The engine yields no number exactly when the series is not empty and
    the discount rate is -100%. *)
Lemma discounted_cash_flows_none_iff (CF : list Q) (TV r : Q) :
  Dcf.discounted_cash_flows CF TV r = None <-> CF <> [] /\ (1 + r == 0)%Q.
Proof.
  split.
  - intros Hnone. destruct CF as [| cf CF].
    + unfold Dcf.discounted_cash_flows in Hnone. cbn in Hnone. discriminate.
    + split; [discriminate |].
      destruct (Qeq_dec (1 + r) 0) as [E | Hne]; [exact E |].
      pose proof (discounted_cash_flows_formula r Hne (cf :: CF) TV) as H.
      rewrite Hnone in H. contradiction.
  - intros [Hne E]. destruct CF as [| cf CF]; [contradiction |].
    unfold Dcf.discounted_cash_flows, Py.enumerate.
    cbn [Py.enumerate_from traverse Z.add].
    rewrite truediv_none; [reflexivity |].
    rewrite E. apply Qpower_0. discriminate.
Qed.

Lemma big_sum_scale (k : Q) (f : Z -> Q) (n : nat) :
  Spec.big_sum (fun i => k * f i)%Q n == (k * Spec.big_sum f n)%Q.
Proof.
  induction n as [| n IH]; cbn [Spec.big_sum]; [ring |].
  rewrite IH. ring.
Qed.

(** A series growing at [g] for [n] periods, closed by a Gordon Growth
    terminal value at the same growth [g], is worth the growing perpetuity
    [c * (1+g) / (r-g)] whatever the horizon. *)
Lemma perpetuity_telescopes (c g r : Q) (n : nat) :
  ~ r == g -> ~ (1 + r == 0)%Q ->
  (Spec.big_sum (fun i => c * (1 + g) ^ i / (1 + r) ^ i) n
   + (c * (1 + g) ^ Z.of_nat n * (1 + g) / (r - g)) / (1 + r) ^ Z.of_nat n
   == c * (1 + g) / (r - g))%Q.
Proof.
  intros Hrg Hr.
  assert (Hden : ~ (r - g == 0)%Q) by (intros E; apply Hrg; lra).
  induction n as [| n IH].
  - cbn. field. exact Hden.
  - cbn [Spec.big_sum].
    replace (Z.of_nat (S n)) with (Z.of_nat n + 1)%Z by lia.
    rewrite !Qpower_plus' by lia.
    change ((1 + g) ^ 1)%Q with (1 + g)%Q. change ((1 + r) ^ 1)%Q with (1 + r)%Q.
    rewrite <- IH.
    assert (HB : ~ ((1 + r) ^ Z.of_nat n == 0)%Q) by (apply Qpower_not_0, Hr).
    set (A := ((1 + g) ^ Z.of_nat n)%Q) in *.
    set (B := ((1 + r) ^ Z.of_nat n)%Q) in *.
    field. repeat split; assumption.
Qed.

(** Projecting at the terminal growth itself and closing with the Gordon
    Growth terminal value: the present value is [fcf * (1+g) / (r-g)] for
    every horizon of at least one period. *)
Lemma dcf_gordon_at_own_growth (fcf g r : Q) (n : Z) :
  (1 <= n)%Z -> ~ r == g -> ~ (1 + r == 0)%Q ->
  (last_cf <- Py.last_item (Dcf.project_cash_flows fcf g n) ;;
   terminal <- Dcf.calculate_terminal_value_gordon last_cf g r ;;
   Dcf.discounted_cash_flows (Dcf.project_cash_flows fcf g n) terminal r)
  =?= Some (fcf * (1 + g) / (r - g))%Q.
Proof.
  intros Hn Hrg Hr. unfold Dcf.project_cash_flows.
  rewrite compounding_last by exact Hn. cbn [bind].
  rewrite gordon_defined by exact Hrg. cbn [bind].
  pose proof (discounted_cash_flows_formula r Hr
                (map (fun i => fcf * (1 + g) ^ i)%Q (Py.range 1 (n + 1)))
                (fcf * (1 + g) ^ n * (1 + g) / (r - g))%Q) as H.
  destruct (Dcf.discounted_cash_flows _ _ _) as [v |]; [| contradiction].
  cbn [res_eq] in *. rewrite H. unfold Spec.present_value.
  rewrite compounding_length.
  rewrite <- (perpetuity_telescopes fcf g r (Z.to_nat n) Hrg Hr).
  replace (Z.of_nat (Z.to_nat n)) with n by lia.
  apply Qplus_comp; [| reflexivity].
  apply big_sum_ext. intros i Hi.
  rewrite compounding_period by lia. reflexivity.
Qed.

(** ** The two sensitivity grids, cell by cell *)

Lemma Forall2_map_r {A B : Type} (P : A -> B -> Prop) (f : A -> B) (l : list A) :
  (forall x, In x l -> P x (f x)) -> Forall2 P l (map f l).
Proof.
  induction l as [| x l IH]; intros H; cbn; constructor.
  - apply H. now left.
  - apply IH. intros y Hy. apply H. now right.
Qed.

Lemma projection_not_empty (fcf g : Q) :
  Dcf.project_cash_flows fcf g Dcf.default_years <> [].
Proof.
  intros E. apply (f_equal (@List.length Q)) in E.
  unfold Dcf.project_cash_flows in E. rewrite compounding_length in E.
  discriminate E.
Qed.

(** X9. The sampled discount rates are the base rate and one, two and three
    points on either side; the sampled growths are the base growth and a
    half and a full point on either side. *)
Theorem sensitivity_samples (discount_rate terminal_growth : Q) :
  Forall2 Qeq
    (Np.linspace (discount_rate - (3 # 100)) (discount_rate + (3 # 100)) 7)
    [discount_rate - (3 # 100); discount_rate - (2 # 100);
     discount_rate - (1 # 100); discount_rate; discount_rate + (1 # 100);
     discount_rate + (2 # 100); discount_rate + (3 # 100)]%Q /\
  Forall2 Qeq
    (Np.linspace (terminal_growth - (1 # 100)) (terminal_growth + (1 # 100)) 5)
    [terminal_growth - (10 # 1000); terminal_growth - (5 # 1000);
     terminal_growth; terminal_growth + (5 # 1000);
     terminal_growth + (10 # 1000)]%Q.
Proof.
  split; unfold Np.linspace; cbn; repeat constructor; field.
Qed.

(** X10. Every cell of the terminal-growth grid is the growing perpetuity
    [fcf * (1+g) / (r-g)] of its own sampled growth [g] and rate [r], and is
    undefined exactly where [r = g] or [r = -1]: neither the horizon nor
    any other growth assumption enters. *)
Theorem sensitivity_grid_cells (latest_fcf discount_rate terminal_growth : Q) :
  Forall2
    (fun g row =>
       Forall2 (fun r cell => cell =?= Spec.perpetuity_cell latest_fcf g r)
               (Np.linspace (discount_rate - (3 # 100))
                            (discount_rate + (3 # 100)) 7)
               row)
    (Np.linspace (terminal_growth - (1 # 100)) (terminal_growth + (1 # 100)) 5)
    (Charts.sensitivity_grid latest_fcf discount_rate terminal_growth).
Proof.
  unfold Charts.sensitivity_grid, Charts.render_sensitivity_heatmap. cbv zeta.
  apply Forall2_map_r. intros g _. apply Forall2_map_r. intros r _.
  unfold Spec.perpetuity_cell.
  destruct (Qeq_bool r g) eqn:Erg; cbn [orb].
  - apply Qeq_bool_eq in Erg.
    unfold Dcf.project_cash_flows at 1.
    rewrite compounding_last by (intros E; discriminate E). cbn [bind].
    rewrite gordon_undefined by exact Erg. exact I.
  - apply Qeq_bool_neq in Erg.
    destruct (Qeq_bool (1 + r) 0) eqn:Er.
    + apply Qeq_bool_eq in Er.
      unfold Dcf.project_cash_flows at 1.
      rewrite compounding_last by (intros E; discriminate E). cbn [bind].
      rewrite gordon_defined by exact Erg. cbn [bind].
      rewrite (proj2 (discounted_cash_flows_none_iff _ _ r));
        [exact I | split; [apply projection_not_empty | exact Er]].
    + apply Qeq_bool_neq in Er.
      apply dcf_gordon_at_own_growth;
        [intros E; discriminate E | exact Erg | exact Er].
Qed.

(** X11. The sampled exit multiples are the base multiple plus or minus 1, 3
    and 5: the multiple chosen on the page is not among them. *)
Theorem exit_multiple_samples (exit_multiple : Z) :
  Np.arange (exit_multiple - 5) (exit_multiple + 6) 2
  = [exit_multiple - 5; exit_multiple - 3; exit_multiple - 1;
     exit_multiple + 1; exit_multiple + 3; exit_multiple + 5]%Z /\
  ~ In exit_multiple (Np.arange (exit_multiple - 5) (exit_multiple + 6) 2).
Proof.
  assert (E : Np.arange (exit_multiple - 5) (exit_multiple + 6) 2
              = [exit_multiple - 5; exit_multiple - 3; exit_multiple - 1;
                 exit_multiple + 1; exit_multiple + 3; exit_multiple + 5]%Z).
  { unfold Np.arange.
    replace (exit_multiple + 6 - (exit_multiple - 5) + 2 - 1)%Z with 12%Z by lia.
    change (Z.to_nat (12 / 2)) with 6%nat. cbn [seq map].
    repeat (apply f_equal2; [lia |]). reflexivity. }
  split; [exact E |].
  rewrite E. cbn. lia.
Qed.

(** X12. Every cell of the exit-multiple grid is the value of five periods at
    10% growth plus the sampled multiple times the fifth cash flow,
    discounted at the sampled rate; it is proportional to the cash flow,
    rises linearly with the multiple, and is undefined only at a rate of
    -100%. *)
Theorem exit_multiple_grid_cells (latest_fcf discount_rate : Q) (exit_multiple : Z) :
  Forall2
    (fun m row =>
       Forall2 (fun r cell => cell =?= Spec.exit_cell latest_fcf m r)
               (Np.linspace (discount_rate - (3 # 100))
                            (discount_rate + (3 # 100)) 7)
               row)
    (Np.arange (exit_multiple - 5) (exit_multiple + 6) 2)
    (Charts.exit_multiple_grid latest_fcf discount_rate exit_multiple).
Proof.
  unfold Charts.exit_multiple_grid, Charts.render_exit_multiple_heatmap. cbv zeta.
  apply Forall2_map_r. intros m _. apply Forall2_map_r. intros r _.
  unfold Spec.exit_cell.
  unfold Dcf.project_cash_flows at 1.
  rewrite compounding_last by (intros E; discriminate E). cbn [bind].
  destruct (Qeq_bool (1 + r) 0) eqn:Er.
  - apply Qeq_bool_eq in Er.
    rewrite (proj2 (discounted_cash_flows_none_iff _ _ r));
      [exact I | split; [apply projection_not_empty | exact Er]].
  - apply Qeq_bool_neq in Er.
    pose proof (discounted_cash_flows_formula r Er
                  (Dcf.project_cash_flows latest_fcf (10 # 100) Dcf.default_years)
                  (Dcf.calculate_terminal_value_exit_multiple
                     (latest_fcf * (1 + (10 # 100)) ^ Dcf.default_years)
                     (inject_Z m))) as H.
    destruct (Dcf.discounted_cash_flows _ _ _) as [v |]; [| contradiction].
    cbn [res_eq] in *. rewrite H.
    unfold Spec.present_value, Dcf.calculate_terminal_value_exit_multiple,
      Dcf.project_cash_flows, Dcf.default_years.
    rewrite compounding_length.
    change (Z.of_nat (Z.to_nat 5)) with 5%Z. change (Z.to_nat 5) with 5%nat.
    assert (E : (1 + (10 # 100) == 11 # 10)%Q) by reflexivity.
    rewrite Qmult_plus_distr_r, <- big_sum_scale.
    apply Qplus_comp.
    + apply big_sum_ext. intros i Hi.
      rewrite compounding_period by lia. rewrite E.
      assert (HX : ~ ((1 + r) ^ i == 0)%Q) by (apply Qpower_not_0, Er).
      set (X := ((1 + r) ^ i)%Q) in *. set (Y := ((11 # 10) ^ i)%Q).
      field. exact HX.
    + rewrite E.
      assert (HX : ~ ((1 + r) ^ 5 == 0)%Q) by (apply Qpower_not_0, Er).
      set (X := ((1 + r) ^ 5)%Q) in *. set (Y := ((11 # 10) ^ 5)%Q).
      field. exact HX.
Qed.

(** ** The valuation is proportional to the latest cash flow *)

Lemma projection_present_value (fcf g r TV K : Q) :
  ~ (1 + r == 0)%Q -> (TV == fcf * (1 + g) ^ 5 * K)%Q ->
  (Spec.present_value (Dcf.project_cash_flows fcf g Dcf.default_years) TV r
   == fcf * Spec.dcf_factor g r K)%Q.
Proof.
  intros Hr HTV.
  unfold Spec.present_value, Spec.dcf_factor, Dcf.project_cash_flows,
    Dcf.default_years.
  rewrite compounding_length.
  change (Z.of_nat (Z.to_nat 5)) with 5%Z. change (Z.to_nat 5) with 5%nat.
  rewrite Qmult_plus_distr_r, <- big_sum_scale.
  apply Qplus_comp.
  - apply big_sum_ext. intros i Hi.
    rewrite compounding_period by lia.
    assert (HX : ~ ((1 + r) ^ i == 0)%Q) by (apply Qpower_not_0, Hr).
    set (X := ((1 + r) ^ i)%Q) in *. set (Y := ((1 + g) ^ i)%Q).
    field. exact HX.
  - rewrite HTV.
    assert (HX : ~ ((1 + r) ^ 5 == 0)%Q) by (apply Qpower_not_0, Hr).
    set (X := ((1 + r) ^ 5)%Q) in *. set (Y := ((1 + g) ^ 5)%Q).
    field. exact HX.
Qed.

(** X8. The total value of the DCF page is the latest cash flow times a
    factor that depends on the rates and on the terminal method only,
    whenever it is defined ([r] is not -100% and, for Gordon Growth, not the
    terminal growth). *)
Theorem dcf_total_value_proportional
    (latest_fcf growth_rate terminal_growth discount_rate : Q)
    (method : App.tv_method) :
  ~ (1 + discount_rate == 0)%Q ->
  (method = App.GordonGrowth -> ~ discount_rate == terminal_growth) ->
  App.dcf_total_value latest_fcf growth_rate terminal_growth discount_rate method
  =?= Some (latest_fcf
            * Spec.dcf_factor growth_rate discount_rate
                (Spec.terminal_factor method terminal_growth discount_rate))%Q.
Proof.
  intros Hr Hm. unfold App.dcf_total_value. cbv zeta.
  unfold Dcf.project_cash_flows at 1.
  rewrite compounding_last by (intros E; discriminate E). cbn [bind].
  destruct method as [| exit_multiple]; cbn [Spec.terminal_factor].
  - rewrite gordon_defined by (apply Hm; reflexivity). cbn [bind].
    pose proof (discounted_cash_flows_formula discount_rate Hr
                  (Dcf.project_cash_flows latest_fcf growth_rate Dcf.default_years)
                  (latest_fcf * (1 + growth_rate) ^ Dcf.default_years
                   * (1 + terminal_growth) / (discount_rate - terminal_growth))%Q) as H.
    destruct (Dcf.discounted_cash_flows _ _ _) as [v |]; [| contradiction].
    cbn [res_eq] in *. rewrite H.
    apply projection_present_value; [exact Hr |].
    unfold Dcf.default_years.
    assert (Hden : ~ (discount_rate - terminal_growth == 0)%Q).
    { intros E. apply (Hm eq_refl). lra. }
    set (Y := ((1 + growth_rate) ^ 5)%Q). field. exact Hden.
  - cbn [bind].
    pose proof (discounted_cash_flows_formula discount_rate Hr
                  (Dcf.project_cash_flows latest_fcf growth_rate Dcf.default_years)
                  (Dcf.calculate_terminal_value_exit_multiple
                     (latest_fcf * (1 + growth_rate) ^ Dcf.default_years)
                     exit_multiple)) as H.
    destruct (Dcf.discounted_cash_flows _ _ _) as [v |]; [| contradiction].
    cbn [res_eq] in *. rewrite H.
    apply projection_present_value; [exact Hr |].
    unfold Dcf.calculate_terminal_value_exit_multiple, Dcf.default_years.
    reflexivity.
Qed.

Lemma dcf_total_value_proportional_witness :
  App.dcf_total_value 200 (1 # 10) (2 # 100) (1 # 10) (App.ExitMultiple 12)
  =?= Some (200 * Spec.dcf_factor (1 # 10) (1 # 10) 12)%Q.
Proof.
  apply (dcf_total_value_proportional 200 (1 # 10) (2 # 100) (1 # 10)
           (App.ExitMultiple 12));
    [discriminate | intros E; discriminate E].
Defined.

(** ** The discount rate of the DCF page *)

Lemma pct_le (a b : Z) : (App.pct a <= App.pct b)%Q <-> (a <= b)%Z.
Proof.
  unfold App.pct, Qle, Qdiv, Qmult, Qinv, inject_Z. cbn. lia.
Qed.

Lemma pct_eq (a b : Z) : App.pct a == App.pct b <-> a = b.
Proof.
  unfold App.pct, Qeq, Qdiv, Qmult, Qinv, inject_Z. cbn. lia.
Qed.

(** X13. With the manual WACC slider (5..15) and the terminal-growth slider
    (0..5), the discount rate is never below the terminal growth, and the
    Gordon Growth terminal value is undefined only with both sliders
    at 5. *)
Theorem manual_wacc_and_terminal_growth
    (fcf : Q) (beta : option Q) (manual_wacc terminal_growth : Z) :
  (5 <= manual_wacc <= 15)%Z -> (0 <= terminal_growth <= 5)%Z ->
  (App.pct terminal_growth <= App.page_discount_rate false beta manual_wacc)%Q /\
  (Dcf.calculate_terminal_value_gordon
     fcf (App.pct terminal_growth) (App.page_discount_rate false beta manual_wacc)
   = None
   <-> manual_wacc = 5%Z /\ terminal_growth = 5%Z).
Proof.
  intros Hw Hg. cbn [App.page_discount_rate]. split.
  - apply pct_le. lia.
  - rewrite gordon_none_iff, pct_eq. lia.
Qed.

Lemma manual_wacc_and_terminal_growth_witness :
  Dcf.calculate_terminal_value_gordon
    100 (App.pct 5) (App.page_discount_rate false None 5) = None.
Proof.
  apply (manual_wacc_and_terminal_growth 100 None 5 5); lia.
Defined.

(** X14. The CAPM rate is 4.5% times one plus beta, 9% when the provider gives
    no beta; it exceeds every terminal growth the slider allows exactly when
    beta is above 1/9. *)
Theorem capm_rate_and_terminal_growth (b : Q) :
  App.page_discount_rate true None 10 == 9 # 100 /\
  App.page_discount_rate true (Some b) 10 == (45 # 1000) * (1 + b) /\
  ((forall terminal_growth : Z,
       (0 <= terminal_growth <= 5)%Z ->
       (App.pct terminal_growth < App.page_discount_rate true (Some b) 10)%Q)
   <-> (1 # 9 < b)%Q).
Proof.
  cbn [App.page_discount_rate]. unfold App.capm_discount_rate, App.rf, App.market_return.
  split; [reflexivity |]. split; [ring |]. split.
  - intros H. specialize (H 5%Z ltac:(lia)). unfold App.pct in H.
    assert (E : (inject_Z 5 / 100 == 5 # 100)%Q) by reflexivity.
    rewrite E in H. lra.
  - intros Hb tg Htg.
    apply Qle_lt_trans with (App.pct 5).
    + apply pct_le. lia.
    + unfold App.pct.
      assert (E : (inject_Z 5 / 100 == 5 # 100)%Q) by reflexivity.
      rewrite E. lra.
Qed.

(** ** The dividend discount models, case by case *)

(** X15. The single-stage model reports its error exactly when the discount
    rate does not exceed the growth, shows the value
    [D * (1+g) / (r-g)] when there is a dividend and the rate exceeds the
    growth, shows nothing without a dividend, and never divides by zero. *)
Theorem ddm_single_stage_outcomes (dividend current_price : option Q) (g r : Q) :
  (App.ddm_single_stage dividend current_price g r = App.ModelError
   <-> (r <= g)%Q) /\
  ((g < r)%Q ->
   match dividend with
   | Some d =>
       if Py.truthy dividend then
         exists v,
           App.ddm_single_stage dividend current_price g r
           = App.Valued v (App.ddm_market_comparison v current_price) /\
           v == d * (1 + g) / (r - g)
       else App.ddm_single_stage dividend current_price g r = App.NothingShown
   | None => App.ddm_single_stage dividend current_price g r = App.NothingShown
   end) /\
  App.ddm_single_stage dividend current_price g r <> App.Raised.
Proof.
  assert (Hgt : (g < r)%Q -> Py.gt r g = true) by (apply gt_spec).
  assert (Hle : (r <= g)%Q -> Py.gt r g = false) by (apply gt_false).
  assert (Hb : (g < r)%Q -> Qle_bool r g = false).
  { intros H. apply not_true_iff_false. rewrite Qle_bool_iff. lra. }
  assert (Hb' : (r <= g)%Q -> Qle_bool r g = true) by (apply Qle_bool_iff).
  unfold App.ddm_single_stage.
  destruct (Qlt_le_dec g r) as [Hlt | Hge].
  - rewrite (Hb Hlt).
    destruct dividend as [d |].
    + rewrite (Hgt Hlt), andb_true_r.
      rewrite truediv_some by (intros E; lra).
      destruct (Py.truthy (Some d)).
      * split; [split; [discriminate | intros; lra] |].
        split; [| discriminate].
        intros _. eexists. split; reflexivity.
      * split; [split; [discriminate | intros; lra] |].
        split; [reflexivity | discriminate].
    + split; [split; [discriminate | intros; lra] |].
      split; [reflexivity | discriminate].
  - rewrite (Hb' Hge).
    destruct dividend as [d |].
    + rewrite (Hle Hge), andb_false_r.
      split; [split; [intros _; exact Hge | reflexivity] |].
      split; [intros; lra | discriminate].
    + split; [split; [intros _; exact Hge | reflexivity] |].
      split; [intros; lra | discriminate].
Qed.

(** X16. With a dividend, at least one year of high growth and a discount rate
    other than -100%, the multi-stage model stops on a division by zero
    exactly when the discount rate equals the terminal growth; unlike the
    single-stage model it has no other check, and shows a value for a rate
    below the growth. *)
Theorem ddm_multi_stage_raises_iff
    (D0 : Q) (current_price : option Q) (y : Z) (g1 g2 r : Q) :
  ~ D0 == 0 -> (1 <= y)%Z -> ~ (1 + r == 0)%Q ->
  (App.ddm_multi_stage (Some D0) current_price y g1 g2 r = App.Raised
   <-> r == g2) /\
  (~ r == g2 ->
   exists v, App.ddm_multi_stage (Some D0) current_price y g1 g2 r
             = App.Valued v (App.ddm_market_comparison v current_price)).
Proof.
  intros HD Hy Hr.
  assert (Hval : ~ r == g2 ->
                 exists v, App.ddm_multi_stage (Some D0) current_price y g1 g2 r
                           = App.Valued v (App.ddm_market_comparison v current_price)).
  { intros Hne.
    destruct (multi_stage_intrinsic_value_formula D0 g1 g2 r y Hy Hne Hr)
      as (v & Hv & _).
    exists v. unfold App.ddm_multi_stage.
    rewrite (truthy_some D0 HD), Hv. reflexivity. }
  split; [| exact Hval]. split.
  - intros Hraised. destruct (Qeq_dec r g2) as [E | Hne]; [exact E |].
    destruct (Hval Hne) as (v & Hv). rewrite Hv in Hraised. discriminate.
  - intros E. unfold App.ddm_multi_stage.
    rewrite (truthy_some D0 HD).
    unfold App.multi_stage_intrinsic_value. cbv zeta.
    rewrite compounding_last by exact Hy. cbn [bind].
    rewrite truediv_none by lra. reflexivity.
Qed.

Lemma ddm_multi_stage_raises_iff_witness :
  App.ddm_multi_stage (Some 2%Q) None 5 (8 # 100) (5 # 100) (5 # 100) = App.Raised /\
  exists v, App.ddm_multi_stage (Some 2%Q) None 5 (8 # 100) (9 # 100) (5 # 100)
            = App.Valued v (App.ddm_market_comparison v None).
Proof.
  split.
  - apply (ddm_multi_stage_raises_iff 2 None 5 (8 # 100) (5 # 100) (5 # 100));
      [discriminate | intros E; discriminate E | discriminate | reflexivity].
  - apply (ddm_multi_stage_raises_iff 2 None 5 (8 # 100) (9 # 100) (5 # 100));
      [discriminate | intros E; discriminate E | discriminate | discriminate].
Defined.





(** X18. The chart of the multi-stage model plots one dividend per year of its
    x axis, [div_years + 5] in all: the dividends of the high-growth years,
    then five years compounding the last of them at the terminal growth. *)
Theorem extended_dividends_chart
    (dividend : Q) (div_years : Z) (initial_growth terminal_growth : Q) :
  (1 <= div_years)%Z ->
  exists points,
    App.extended_dividends dividend div_years initial_growth terminal_growth
    = Some points /\
    List.length points = List.length (App.chart_years div_years) /\
    List.length points = Z.to_nat (div_years + 5) /\
    (forall i, (1 <= i <= div_years)%Z ->
       nth_error points (Z.to_nat (i - 1))
       = Some (dividend * (1 + initial_growth) ^ i)%Q) /\
    (forall k, (1 <= k <= 5)%Z ->
       nth_error points (Z.to_nat (div_years + k - 1))
       = Some (dividend * (1 + initial_growth) ^ div_years
               * (1 + terminal_growth) ^ k)%Q).
Proof.
  intros Hy. unfold App.extended_dividends. cbv zeta.
  rewrite compounding_last by exact Hy. cbn [bind].
  assert (Htail : forall c : Q,
             List.length (map (fun i => c * (1 + terminal_growth) ^ i)%Q
                              (Py.range 1 6)) = 5%nat).
  { intros c. rewrite length_map, range_length. reflexivity. }
  eexists. split; [reflexivity |].
  repeat split.
  - unfold App.chart_years.
    rewrite length_app, compounding_length, Htail, range_length. lia.
  - rewrite length_app, compounding_length, Htail. lia.
  - intros i Hi. rewrite nth_error_app1 by (rewrite compounding_length; lia).
    apply compounding_nth_error. exact Hi.
  - intros k Hk. rewrite nth_error_app2 by (rewrite compounding_length; lia).
    rewrite compounding_length.
    replace (Z.to_nat (div_years + k - 1) - Z.to_nat div_years)%nat
      with (Z.to_nat (k - 1)) by lia.
    apply (compounding_nth_error
             (dividend * (1 + initial_growth) ^ div_years) terminal_growth 5 k Hk).
Qed.

Lemma extended_dividends_chart_witness :
  exists points,
    App.extended_dividends 2 3 (8 # 100) (3 # 100) = Some points /\
    List.length points = 8%nat.
Proof.
  destruct (extended_dividends_chart 2 3 (8 # 100) (3 # 100))
    as (points & Hp & _ & Hlen & _); [intros E; discriminate E |].
  exists points. split; [exact Hp | exact Hlen].
Defined.

(** ** The multi-ticker comparison, row by row *)

Section ComparisonRows.

Variable get_financials : string -> option App.financials.

(** The row of a ticker in the table. *)
Let row_of (t : string) : App.comparison_row :=
  match App.try_row get_financials t with
  | Some row => row
  | None => App.not_available_row t
  end.

Lemma comparison_values (fcf : Q) :
  exists vg ve : Q,
    vg == (71 # 4) * fcf /\ ve == 17 * fcf /\
    forall t f,
      get_financials t = Some f -> App.latest_fcf f = Some fcf ->
      App.try_row get_financials t
      = Some {| App.Ticker := t;
                App.Market_Price := App.rounded_or_na (App.currentPrice f);
                App.Intrinsic_Gordon :=
                  App.rounded_or_na (App.per_share vg (App.sharesOutstanding f));
                App.Intrinsic_Exit_Multiple :=
                  App.rounded_or_na (App.per_share ve (App.sharesOutstanding f));
                App.Valuation_Gordon :=
                  App.Label (App.table_label
                               (App.per_share vg (App.sharesOutstanding f))
                               (App.currentPrice f));
                App.Valuation_Exit :=
                  App.Label (App.table_label
                               (App.per_share ve (App.sharesOutstanding f))
                               (App.currentPrice f)) |}.
Proof.
  assert (Hr : ~ (1 + (10 # 100) == 0)%Q) by discriminate.
  set (proj := Dcf.project_cash_flows fcf (10 # 100) Dcf.default_years).
  set (last_cf := (fcf * (1 + (10 # 100)) ^ Dcf.default_years)%Q).
  assert (Hlast : Py.last_item proj = Some last_cf).
  { unfold proj, Dcf.project_cash_flows.
    apply compounding_last. intros E; discriminate E. }
  set (tg := (last_cf * (1 + (2 # 100)) / ((10 # 100) - (2 # 100)))%Q).
  assert (Htg : Dcf.calculate_terminal_value_gordon last_cf (2 # 100) (10 # 100)
                = Some tg) by (apply gordon_defined; discriminate).
  set (te := Dcf.calculate_terminal_value_exit_multiple last_cf 12).
  pose proof (discounted_cash_flows_formula (10 # 100) Hr proj tg) as Hg.
  pose proof (discounted_cash_flows_formula (10 # 100) Hr proj te) as He.
  destruct (Dcf.discounted_cash_flows proj tg (10 # 100)) as [vg |] eqn:Evg;
    [| contradiction].
  destruct (Dcf.discounted_cash_flows proj te (10 # 100)) as [ve |] eqn:Eve;
    [| contradiction].
  cbn [res_eq] in Hg, He.
  exists vg, ve. split; [| split].
  - rewrite Hg. unfold proj.
    rewrite (projection_present_value fcf (10 # 100) (10 # 100) tg
               ((1 + (2 # 100)) / ((10 # 100) - (2 # 100))) Hr).
    + assert (E : Spec.dcf_factor (10 # 100) (10 # 100)
                    ((1 + (2 # 100)) / ((10 # 100) - (2 # 100))) == 71 # 4)
        by (vm_compute; reflexivity).
      rewrite E. ring.
    + unfold tg, last_cf, Dcf.default_years.
      set (Y := ((1 + (10 # 100)) ^ 5)%Q). field.
  - rewrite He. unfold proj.
    rewrite (projection_present_value fcf (10 # 100) (10 # 100) te 12 Hr).
    + assert (E : Spec.dcf_factor (10 # 100) (10 # 100) 12 == 17)
        by (vm_compute; reflexivity).
      rewrite E. ring.
    + reflexivity.
  - intros t f Hf Hfcf. unfold App.try_row.
    rewrite Hf. cbn [bind]. rewrite Hfcf. cbn [bind]. cbv zeta.
    fold proj. rewrite Hlast. cbn [bind].
    fold last_cf. rewrite Htg. cbn [bind]. rewrite Evg. cbn [bind].
    fold te. rewrite Eve. cbn [bind]. reflexivity.
Qed.

(** A ticker gets the all-N/A row exactly when the provider fails for it
    or has no free cash flow; nothing else in the block can fail. *)
Lemma try_row_none_iff (t : string) :
  App.try_row get_financials t = None <->
  get_financials t = None \/
  exists f, get_financials t = Some f /\ App.latest_fcf f = None.
Proof.
  split.
  - intros Hnone.
    destruct (get_financials t) as [f |] eqn:Ef; [right | now left].
    exists f. split; [reflexivity |].
    destruct (App.latest_fcf f) as [fcf |] eqn:Efcf; [| reflexivity].
    destruct (comparison_values fcf) as (vg & ve & _ & _ & Hrow).
    rewrite (Hrow t f Ef Efcf) in Hnone. discriminate.
  - intros [Hnone | (f & Hf & Hfcf)]; unfold App.try_row.
    + now rewrite Hnone.
    + rewrite Hf. cbn [bind]. now rewrite Hfcf.
Qed.

(** X20. With the fixed assumptions of the table (10% growth, 10% discount
    rate, 2% terminal growth, exit multiple 12) the Gordon value of a ticker
    is 17.75 times its latest free cash flow and the exit-multiple value 17
    times; the row shows them per share, rounded, and labels each against
    the market price. *)
Theorem comparison_row_values (t : string) (f : App.financials) (fcf : Q) :
  get_financials t = Some f -> App.latest_fcf f = Some fcf ->
  exists vg ve : Q,
    vg == (71 # 4) * fcf /\ ve == 17 * fcf /\
    App.try_row get_financials t
    = Some {| App.Ticker := t;
              App.Market_Price := App.rounded_or_na (App.currentPrice f);
              App.Intrinsic_Gordon :=
                App.rounded_or_na (App.per_share vg (App.sharesOutstanding f));
              App.Intrinsic_Exit_Multiple :=
                App.rounded_or_na (App.per_share ve (App.sharesOutstanding f));
              App.Valuation_Gordon :=
                App.Label (App.table_label
                             (App.per_share vg (App.sharesOutstanding f))
                             (App.currentPrice f));
              App.Valuation_Exit :=
                App.Label (App.table_label
                             (App.per_share ve (App.sharesOutstanding f))
                             (App.currentPrice f)) |}.
Proof.
  intros Hf Hfcf.
  destruct (comparison_values fcf) as (vg & ve & Hvg & Hve & Hrow).
  exists vg, ve. split; [exact Hvg | split; [exact Hve | exact (Hrow t f Hf Hfcf)]].
Qed.

Lemma table_label_undervalued (intrinsic market : option Q) :
  App.table_label intrinsic market = App.Undervalued ->
  exists i m, intrinsic = Some i /\ market = Some m /\ (m < i)%Q /\ ~ i == 0.
Proof.
  unfold App.table_label.
  destruct intrinsic as [i |]; [| discriminate].
  destruct market as [m |]; [| discriminate].
  destruct (Py.truthy (Some i)) eqn:Ei; [| discriminate].
  destruct (Py.truthy (Some m)); [| discriminate].
  destruct (Py.gt i m) eqn:Egt; [| discriminate].
  intros _. exists i, m. repeat split; [apply gt_spec, Egt |].
  unfold Py.truthy in Ei. apply negb_true_iff in Ei. apply Qeq_bool_neq, Ei.
Qed.

Lemma per_share_some (value : Q) (shares : option Q) (i : Q) :
  App.per_share value shares = Some i ->
  exists n, shares = Some n /\ ~ n == 0 /\ i = (value / n)%Q.
Proof.
  unfold App.per_share. destruct shares as [n |]; [| discriminate].
  destruct (Py.truthy (Some n)) eqn:En; [| discriminate].
  unfold Py.truthy in En. apply negb_true_iff, Qeq_bool_neq in En.
  rewrite (truediv_some value n En). intros H. injection H as <-.
  exists n. repeat split; assumption.
Qed.

(** X21. For a positive market price, a ticker labelled Undervalued on the
    exit-multiple value is labelled Undervalued on the Gordon value
    too. *)
Theorem exit_undervalued_implies_gordon_undervalued
    (t : string) (f : App.financials) (m : Q) (row : App.comparison_row) :
  get_financials t = Some f -> App.currentPrice f = Some m -> (0 < m)%Q ->
  App.try_row get_financials t = Some row ->
  App.Valuation_Exit row = App.Label App.Undervalued ->
  App.Valuation_Gordon row = App.Label App.Undervalued.
Proof.
  intros Hf Hm Hpos Hrow Hexit.
  destruct (App.latest_fcf f) as [fcf |] eqn:Efcf.
  2: { assert (Hnone : App.try_row get_financials t = None)
         by (apply try_row_none_iff; right; exists f; split; assumption).
       rewrite Hnone in Hrow. discriminate. }
  destruct (comparison_values fcf) as (vg & ve & Hvg & Hve & Hvals).
  rewrite (Hvals t f Hf Efcf) in Hrow. injection Hrow as <-.
  cbn [App.Valuation_Exit App.Valuation_Gordon] in *.
  injection Hexit as Hexit. f_equal.
  rewrite Hm in *.
  apply table_label_undervalued in Hexit.
  destruct Hexit as (i & m' & Hi & Hm' & Hlt & _). injection Hm' as <-.
  apply per_share_some in Hi. destruct Hi as (n & Hn & Hn0 & ->).
  unfold App.table_label, App.per_share. rewrite Hn.
  rewrite (truthy_some n Hn0), (truediv_some vg n Hn0).
  assert (Hratio : (vg / n == (71 # 68) * (ve / n))%Q).
  { rewrite Hvg, Hve. field. exact Hn0. }
  assert (Hgt : (m < vg / n)%Q) by (rewrite Hratio; lra).
  rewrite (truthy_some (vg / n)) by (intros E; lra).
  rewrite (truthy_some m) by (intros E; lra).
  rewrite (proj2 (gt_spec (vg / n) m) Hgt). reflexivity.
Qed.

(** X22. Without a usable market price (absent, or zero) a ticker whose data
    was fetched is still labelled, and labelled Overvalued on both
    values. *)
Theorem no_price_is_labelled_overvalued
    (t : string) (f : App.financials) (row : App.comparison_row) :
  get_financials t = Some f -> Py.truthy (App.currentPrice f) = false ->
  App.try_row get_financials t = Some row ->
  App.Market_Price row = App.NotAvailable /\
  App.Valuation_Gordon row = App.Label App.Overvalued /\
  App.Valuation_Exit row = App.Label App.Overvalued.
Proof.
  intros Hf Hprice Hrow.
  destruct (App.latest_fcf f) as [fcf |] eqn:Efcf.
  2: { assert (Hnone : App.try_row get_financials t = None)
         by (apply try_row_none_iff; right; exists f; split; assumption).
       rewrite Hnone in Hrow. discriminate. }
  destruct (comparison_values fcf) as (vg & ve & _ & _ & Hvals).
  rewrite (Hvals t f Hf Efcf) in Hrow. injection Hrow as <-.
  cbn [App.Market_Price App.Valuation_Gordon App.Valuation_Exit].
  unfold App.rounded_or_na, App.table_label.
  destruct (App.currentPrice f) as [m |].
  - rewrite Hprice. rewrite !andb_false_r.
    repeat split; destruct (App.per_share _ _); reflexivity.
  - repeat split; destruct (App.per_share _ _); reflexivity.
Qed.

Lemma comparison_fold (l : list string) (st : App.loop_state) :
  App.comparison (fold_left (App.loop_body get_financials) l st)
  = App.comparison st ++ map row_of l.
Proof.
  revert st. induction l as [| t l IH]; intros st; cbn [fold_left map].
  - now rewrite app_nil_r.
  - rewrite IH. cbn [App.loop_body App.comparison].
    rewrite <- app_assoc. reflexivity.
Qed.

(** X23. The table has one row per listed ticker, in order, each computed from
    that ticker's data alone: a ticker that fails gets the all-N/A row and
    leaves the other rows untouched. *)
Theorem comparison_rows_are_independent (tickers : string) :
  App.comparison (App.compare_tickers get_financials tickers)
  = if PyStr.truthy tickers
    then map (fun t => match App.try_row get_financials t with
                       | Some row => row
                       | None => App.not_available_row t
                       end)
             (Tickers.ticker_list tickers)
    else [].
Proof.
  unfold App.compare_tickers. cbv zeta.
  destruct (PyStr.truthy tickers); [| reflexivity].
  rewrite comparison_fold. reflexivity.
Qed.

End ComparisonRows.

(** ** The parsed tickers *)

Section TickerStrings.

Local Open Scope char_scope.

Ltac every_character c :=
  destruct c as [[] [] [] [] [] [] [] []]; reflexivity.

Lemma upper_char_idempotent (c : ascii) :
  PyStr.upper_char (PyStr.upper_char c) = PyStr.upper_char c.
Proof. every_character c. Qed.

Lemma upper_char_space (c : ascii) :
  PyStr.is_space (PyStr.upper_char c) = PyStr.is_space c.
Proof. every_character c. Qed.

Lemma upper_char_comma (c : ascii) :
  Ascii.eqb (PyStr.upper_char c) "," = Ascii.eqb c ",".
Proof. every_character c. Qed.

Lemma upper_char_not_v (c : ascii) : PyStr.upper_char c <> "v".
Proof.
  destruct c as [[] [] [] [] [] [] [] []]; discriminate.
Qed.

Lemma upper_idempotent (s : string) : PyStr.upper (PyStr.upper s) = PyStr.upper s.
Proof.
  induction s as [| c s IH]; cbn; [reflexivity |].
  now rewrite upper_char_idempotent, IH.
Qed.

Lemma lstrip_upper (s : string) :
  PyStr.lstrip (PyStr.upper s) = PyStr.upper (PyStr.lstrip s).
Proof.
  induction s as [| c s IH]; cbn; [reflexivity |].
  rewrite upper_char_space. destruct (PyStr.is_space c); [exact IH | reflexivity].
Qed.

Lemma rstrip_upper (s : string) :
  PyStr.rstrip (PyStr.upper s) = PyStr.upper (PyStr.rstrip s).
Proof.
  induction s as [| c s IH]; cbn; [reflexivity |].
  rewrite IH, upper_char_space.
  destruct (PyStr.rstrip s); cbn; [destruct (PyStr.is_space c) |]; reflexivity.
Qed.

Lemma lstrip_idempotent (s : string) :
  PyStr.lstrip (PyStr.lstrip s) = PyStr.lstrip s.
Proof.
  induction s as [| c s IH]; cbn; [reflexivity |].
  destruct (PyStr.is_space c) eqn:E; [exact IH |].
  cbn. now rewrite E.
Qed.

Lemma rstrip_cons (c : ascii) (s : string) :
  PyStr.rstrip (String c s)
  = match PyStr.rstrip s with
    | EmptyString =>
        if PyStr.is_space c then EmptyString else String c EmptyString
    | r => String c r
    end.
Proof. reflexivity. Qed.

Lemma rstrip_idempotent (s : string) :
  PyStr.rstrip (PyStr.rstrip s) = PyStr.rstrip s.
Proof.
  induction s as [| c s IH]; [reflexivity |].
  rewrite (rstrip_cons c s).
  destruct (PyStr.rstrip s) as [| a r] eqn:E.
  - destruct (PyStr.is_space c) eqn:Ec; [reflexivity |].
    rewrite (rstrip_cons c EmptyString). cbn. now rewrite Ec.
  - rewrite (rstrip_cons c (String a r)), IH. reflexivity.
Qed.

(** What [lstrip] returns starts with a character that is not a space. *)
Lemma lstrip_head (s : string) :
  match PyStr.lstrip s with
  | EmptyString => True
  | String c _ => PyStr.is_space c = false
  end.
Proof.
  induction s as [| c s IH]; cbn; [exact I |].
  destruct (PyStr.is_space c) eqn:E; [exact IH | exact E].
Qed.

Lemma lstrip_rstrip_lstrip (s : string) :
  PyStr.lstrip (PyStr.rstrip (PyStr.lstrip s)) = PyStr.rstrip (PyStr.lstrip s).
Proof.
  pose proof (lstrip_head s) as H.
  destruct (PyStr.lstrip s) as [| c u]; [reflexivity |].
  rewrite (rstrip_cons c u).
  destruct (PyStr.rstrip u); rewrite ?H; cbn; now rewrite H.
Qed.

Lemma strip_idempotent (s : string) : PyStr.strip (PyStr.strip s) = PyStr.strip s.
Proof.
  unfold PyStr.strip. now rewrite lstrip_rstrip_lstrip, rstrip_idempotent.
Qed.

Lemma strip_upper (s : string) :
  PyStr.strip (PyStr.upper s) = PyStr.upper (PyStr.strip s).
Proof. unfold PyStr.strip. now rewrite lstrip_upper, rstrip_upper. Qed.

Lemma occurrences_upper (s : string) :
  Spec.occurrences "," (PyStr.upper s) = Spec.occurrences "," s.
Proof.
  induction s as [| c s IH]; cbn; [reflexivity |].
  now rewrite upper_char_comma, IH.
Qed.

Lemma occurrences_lstrip (c : ascii) (s : string) :
  (Spec.occurrences c (PyStr.lstrip s) <= Spec.occurrences c s)%nat.
Proof.
  induction s as [| a s IH]; cbn; [lia |].
  destruct (PyStr.is_space a); cbn; destruct (Ascii.eqb a c); lia.
Qed.

Lemma occurrences_rstrip (c : ascii) (s : string) :
  (Spec.occurrences c (PyStr.rstrip s) <= Spec.occurrences c s)%nat.
Proof.
  induction s as [| a s IH]; cbn; [lia |].
  destruct (PyStr.rstrip s) as [| b r]; cbn in *.
  - destruct (PyStr.is_space a); cbn; destruct (Ascii.eqb a c); lia.
  - destruct (Ascii.eqb a c); lia.
Qed.

Lemma split_not_empty (sep : ascii) (s : string) : PyStr.split sep s <> [].
Proof.
  destruct s as [| c s]; cbn; [discriminate |].
  destruct (Ascii.eqb c sep); [discriminate |].
  destruct (PyStr.split sep s); discriminate.
Qed.

Lemma split_length (sep : ascii) (s : string) :
  List.length (PyStr.split sep s) = S (Spec.occurrences sep s).
Proof.
  induction s as [| c s IH]; cbn; [reflexivity |].
  destruct (Ascii.eqb c sep); cbn; [now rewrite IH |].
  pose proof (split_not_empty sep s) as Hne.
  destruct (PyStr.split sep s) as [| piece pieces]; [contradiction |].
  exact IH.
Qed.

Lemma split_pieces (sep : ascii) (s : string) :
  Forall (fun piece => Spec.occurrences sep piece = 0%nat) (PyStr.split sep s).
Proof.
  induction s as [| c s IH]; cbn; [repeat constructor |].
  destruct (Ascii.eqb c sep) eqn:E; [constructor; [reflexivity | exact IH] |].
  destruct (PyStr.split sep s) as [| piece pieces]; [repeat constructor; cbn; now rewrite E |].
  inversion IH as [| ? ? Hp Hps]; subst.
  constructor; [cbn; now rewrite E | exact Hps].
Qed.

End TickerStrings.

(** X24. There is one parsed ticker more than there are commas in the input,
    empty pieces included, and the list keeps at most five of them. *)
Theorem ticker_count (tickers : string) :
  List.length (Tickers.parsed tickers) = S (Spec.occurrences ","%char tickers) /\
  List.length (Tickers.ticker_list tickers)
  = Nat.min 5 (S (Spec.occurrences ","%char tickers)).
Proof.
  assert (H : List.length (Tickers.parsed tickers)
              = S (Spec.occurrences ","%char tickers)).
  { unfold Tickers.parsed. rewrite length_map. apply split_length. }
  split; [exact H |].
  unfold Tickers.ticker_list. now rewrite length_firstn, H.
Qed.

(** X25. Every parsed ticker is in normal form: stripping it or upper-casing
    it again changes nothing, and it contains no comma. *)
Theorem tickers_are_normalised (tickers t : string) :
  In t (Tickers.parsed tickers) ->
  PyStr.strip t = t /\ PyStr.upper t = t /\ Spec.occurrences ","%char t = 0%nat.
Proof.
  unfold Tickers.parsed. intros Hin. apply in_map_iff in Hin.
  destruct Hin as (piece & <- & Hpiece).
  split; [| split].
  - now rewrite strip_upper, strip_idempotent.
  - apply upper_idempotent.
  - rewrite occurrences_upper.
    pose proof (split_pieces ","%char tickers) as Hall.
    rewrite Forall_forall in Hall. specialize (Hall piece Hpiece).
    unfold PyStr.strip.
    pose proof (occurrences_rstrip ","%char (PyStr.lstrip piece)).
    pose proof (occurrences_lstrip ","%char piece). lia.
Qed.

Lemma tickers_are_normalised_witness :
  In "MSFT"%string (Tickers.parsed " aapl, msft ,,Amzn"%string) /\
  PyStr.strip "MSFT"%string = "MSFT"%string.
Proof.
  assert (Hin : In "MSFT"%string (Tickers.parsed " aapl, msft ,,Amzn"%string))
    by (right; left; reflexivity).
  split; [exact Hin |].
  exact (proj1 (tickers_are_normalised _ _ Hin)).
Defined.

Lemma upper_get (s : string) (n : nat) (c : ascii) :
  String.get n (PyStr.upper s) = Some c -> exists c', c = PyStr.upper_char c'.
Proof.
  revert n. induction s as [| a s IH]; intros n; cbn; [discriminate |].
  destruct n as [| n]; [| apply IH].
  intros H. injection H as <-. now exists a.
Qed.

Lemma upper_has_no_Avg (s : string) : Comps.str_contains "Avg" (PyStr.upper s) = false.
Proof.
  unfold Comps.str_contains.
  destruct (String.index 0 "Avg" (PyStr.upper s)) as [m |] eqn:E; [| reflexivity].
  apply index_correct1 in E.
  assert (Hget : String.get 1 (String.substring m (String.length "Avg") (PyStr.upper s))
                 = Some "v"%char) by (now rewrite E).
  rewrite substring_correct1 in Hget by (cbn; lia).
  apply upper_get in Hget. destruct Hget as (c' & Hc).
  exfalso. exact (upper_char_not_v c' (eq_sym Hc)).
Qed.

(** ** The table of multiples as the page builds it *)

Lemma filter_all {A : Type} (f : A -> bool) (l : list A) :
  (forall x, In x l -> f x = true) -> filter f l = l.
Proof.
  induction l as [| x l IH]; intros H; cbn; [reflexivity |].
  rewrite (H x (or_introl eq_refl)), IH; [reflexivity |].
  intros y Hy. apply H. now right.
Qed.

Lemma In_firstn {A : Type} (n : nat) (l : list A) (x : A) :
  In x (firstn n l) -> In x l.
Proof.
  revert l. induction n as [| n IH]; intros [| y l]; cbn; try tauto.
  intros [-> | H]; [now left | right; apply IH, H].
Qed.

(** X26. The filter on tickers containing "Avg" never removes a row of the
    table the page builds: its tickers are upper-cased. *)
Theorem avg_filter_keeps_every_row
    (get_financials : string -> option (string -> Comps.cell)) (tickers : string) :
  let df := Comps.pd_DataFrame
              (Comps.metrics_table (Comps.collect_multiples get_financials tickers)) in
  Comps.clean_df df = df.
Proof.
  intros df. unfold Comps.clean_df. apply filter_all.
  intros [i row] Hin. apply negb_true_iff.
  unfold df, Comps.pd_DataFrame in Hin. apply in_combine_r in Hin.
  assert (Ht : In (Comps.Ticker row) (Tickers.parsed tickers)).
  { unfold Comps.collect_multiples in Hin. cbv zeta in Hin.
    destruct (PyStr.truthy tickers); [| contradiction].
    apply (in_map Comps.Ticker) in Hin.
    destruct (collect_loop get_financials (Tickers.ticker_list tickers)
                {| Comps.fetched := []; Comps.metrics_table := [] |}) as [_ Hc].
    rewrite Hc in Hin. cbn [Comps.metrics_table map app] in Hin.
    unfold Tickers.ticker_list in Hin. apply In_firstn in Hin. exact Hin. }
  unfold Tickers.parsed in Ht. apply in_map_iff in Ht.
  destruct Ht as (piece & <- & _). apply upper_has_no_Avg.
Qed.

(** ** The latest free cash flow *)

Lemma first_row_none (cashflow_df : Data.cashflow_frame) (keys : list string) :
  Data.first_row cashflow_df keys = None <->
  forall key, In key keys -> cashflow_df key = None.
Proof.
  induction keys as [| k keys IH]; cbn.
  - split; [intros _ key [] | reflexivity].
  - destruct (cashflow_df k) eqn:E.
    + split; [discriminate |]. intros H. rewrite (H k (or_introl eq_refl)) in E.
      discriminate.
    + rewrite IH. split.
      * intros H key [<- | Hk]; [exact E | apply H, Hk].
      * intros H key Hk. apply H. now right.
Qed.

(** X27. [extract_latest_fcf] returns the first figure of the first of its
    three operating-cash-flow labels found in the statement, and [None]
    when none is there.  The approximation "operating cash flow minus
    capital expenditures" is never returned: it is tried only when
    "Operating Cash Flow" is absent, and needs it. *)
Theorem extract_latest_fcf_never_subtracts_capex (cashflow_df : Data.cashflow_frame) :
  Data.extract_latest_fcf cashflow_df
  = match Data.first_row cashflow_df Data.possible_keys with
    | Some (v :: _) => Data.Value v
    | Some [] => Data.IndexError
    | None => Data.NoValue
    end /\
  (Data.extract_latest_fcf cashflow_df = Data.NoValue <->
   forall key, In key Data.possible_keys -> cashflow_df key = None).
Proof.
  assert (Hmain : Data.extract_latest_fcf cashflow_df
                  = match Data.first_row cashflow_df Data.possible_keys with
                    | Some (v :: _) => Data.Value v
                    | Some [] => Data.IndexError
                    | None => Data.NoValue
                    end).
  { unfold Data.extract_latest_fcf.
    destruct (Data.first_row cashflow_df Data.possible_keys) as [row |] eqn:E;
      [reflexivity |].
    rewrite first_row_none in E.
    rewrite (E "Operating Cash Flow"%string) by (right; left; reflexivity).
    reflexivity. }
  split; [exact Hmain |].
  rewrite Hmain, <- first_row_none.
  destruct (Data.first_row cashflow_df Data.possible_keys) as [[| v row] |];
    split; intros H; try discriminate; reflexivity.
Qed.

(** ** The aggregate scores are finite *)

Section ScoreInvariants.

Import Comps.
Local Open Scope R_scope.

Lemma Rsum_nonneg (xs : list R) : (forall x, In x xs -> 0 <= x) -> 0 <= Rsum xs.
Proof.
  induction xs as [| x xs IH]; intros H; cbn; [Lra.lra |].
  fold (Rsum xs).
  pose proof (H x (or_introl eq_refl)).
  assert (0 <= Rsum xs) by (apply IH; intros y Hy; apply H; now right).
  Lra.lra.
Qed.

Lemma Rsum_nonneg_zero (xs : list R) :
  (forall x, In x xs -> 0 <= x) -> Rsum xs = 0 -> forall x, In x xs -> x = 0.
Proof.
  induction xs as [| y xs IH]; intros Hpos Hsum x Hx; [contradiction |].
  cbn in Hsum. fold (Rsum xs) in Hsum.
  pose proof (Hpos y (or_introl eq_refl)) as Hy.
  assert (Hrest : 0 <= Rsum xs)
    by (apply Rsum_nonneg; intros z Hz; apply Hpos; now right).
  destruct Hx as [<- | Hx]; [Lra.lra |].
  apply IH; [intros z Hz; apply Hpos; now right | Lra.lra | exact Hx].
Qed.

Lemma present_In (col : list cell) (x : R) :
  In (Some x) col -> In x (present col).
Proof.
  induction col as [| c col IH]; [contradiction |].
  intros [-> | H]; cbn; [now left |].
  destruct c; [right |]; apply IH, H.
Qed.

(** A zero standard deviation means that every value is the mean. *)
Lemma std_zero_deviation (col : list cell) (m : R) :
  mean col = Some m -> std col = Some 0 ->
  forall x, In x (present col) -> x = m.
Proof.
  intros Hm Hs x Hx. unfold std in Hs. rewrite Hm in Hs. cbv zeta in Hs.
  destruct (Nat.leb_spec (List.length (present col)) 1) as [| Hlen];
    [discriminate |].
  injection Hs as Hs.
  set (squares := map (fun y => (y - m) * (y - m)) (present col)) in *.
  assert (Hsq : forall q, In q squares -> 0 <= q).
  { intros q Hq. apply in_map_iff in Hq. destruct Hq as (y & <- & _).
    apply Rle_0_sqr. }
  assert (Hn : 0 < INR (List.length (present col) - 1)) by (apply lt_0_INR; lia).
  assert (Hquot : 0 <= Rsum squares / INR (List.length (present col) - 1)).
  { apply Rmult_le_pos; [apply Rsum_nonneg, Hsq |].
    apply Rlt_le, Rinv_0_lt_compat, Hn. }
  apply (sqrt_eq_0 _ Hquot) in Hs.
  assert (Hzero : Rsum squares = 0).
  { apply (Rmult_eq_compat_r (INR (List.length (present col) - 1))) in Hs.
    unfold Rdiv in Hs. rewrite Rmult_assoc, Rinv_l, Rmult_1_r, Rmult_0_l in Hs;
      [exact Hs | Lra.lra]. }
  assert (Hx2 : (x - m) * (x - m) = 0).
  { apply (Rsum_nonneg_zero squares Hsq Hzero). unfold squares.
    apply in_map_iff. exists x. split; [reflexivity | exact Hx]. }
  apply Rmult_integral in Hx2. destruct Hx2; Lra.lra.
Qed.

(** The z-score of a cell of a column, as a real number once NaN is
    filled with 0. *)
Lemma filled_entry_finite (col : list cell) (c : cell) :
  In c col ->
  exists v, fillna0 (div (sub c (mean col)) (std col)) = Fin v.
Proof.
  intros Hc.
  destruct c as [x |]; [| exists 0; reflexivity].
  destruct (mean col) as [m |] eqn:Hm; [| exists 0; reflexivity].
  destruct (std col) as [s |] eqn:Hs; [| exists 0; reflexivity].
  cbn [sub div].
  destruct (Req_dec_T s 0) as [-> | Hne]; [| eexists; reflexivity].
  rewrite (std_zero_deviation col m Hm Hs x (present_In col x Hc)).
  destruct (Req_dec_T (m - m) 0) as [_ | Hne]; [exists 0; reflexivity |].
  exfalso. apply Hne. Lra.lra.
Qed.

Lemma row_sum_from (zs : list float) (a : R) :
  (forall z, In z zs -> exists v, z = Fin v) ->
  fold_left (fun acc z => match z with NaN => acc | _ => fadd acc z end)
            zs (Fin a)
  = Fin (a + Rsum (map Spec.to_R zs)).
Proof.
  revert a. induction zs as [| z zs IH]; intros a Hfin; cbn [fold_left map].
  - cbn. f_equal. Lra.lra.
  - destruct (Hfin z (or_introl eq_refl)) as (v & ->).
    cbn [fadd]. rewrite IH by (intros y Hy; apply Hfin; now right).
    cbn. fold (Rsum (map Spec.to_R zs)). f_equal. Lra.lra.
Qed.

Lemma row_sum_finite (zs : list float) :
  (forall z, In z zs -> exists v, z = Fin v) ->
  row_sum zs = Fin (Rsum (map Spec.to_R zs)).
Proof.
  intros Hfin. unfold row_sum. rewrite (row_sum_from zs 0 Hfin).
  f_equal. Lra.lra.
Qed.

Lemma in_column (valid : Frame) (i : nat) (cells : list cell) (j : nat) :
  In (i, cells) valid -> In (nth j cells None) (column j valid).
Proof.
  intros Hin. unfold column. apply in_map_iff.
  exists (i, cells). split; [reflexivity | exact Hin].
Qed.

Lemma filled_row_finite (valid : Frame) (i : nat) (zs : list float) :
  In (i, zs) (z_scores valid) ->
  forall z, In z (map fillna0 zs) -> exists v, z = Fin v.
Proof.
  intros Hzs z Hz.
  destruct (z_scores_inv valid i zs Hzs) as (cells & Hin & ->).
  rewrite map_map in Hz. apply in_map_iff in Hz. destruct Hz as (j & <- & _).
  apply filled_entry_finite, (in_column valid i cells j Hin).
Qed.

(** Every aggregate score is a finite number: the scoring produces
    neither NaN nor an infinity, whatever the figures. *)
Lemma score_entry_finite (valid : Frame) (i : nat) (v : float) :
  In (i, v) (score valid) -> exists x : R, v = Fin x.
Proof.
  unfold score. intros Hin. apply in_map_iff in Hin.
  destruct Hin as ([i' zs] & Heq & Hzs). injection Heq as <- <-.
  eexists. apply row_sum_finite, (filled_row_finite valid i' zs Hzs).
Qed.

End ScoreInvariants.

(** ** The best-valued peer *)

Section BestPeer.

Import Comps.
Local Open Scope R_scope.

Lemma idxmin_from_spec (s : list (nat * float)) :
  (forall i v, In (i, v) s -> exists x, v = Fin x) ->
  forall best : option (nat * float),
    match best with
    | Some (_, bv) => exists y, bv = Fin y
    | None => s <> []
    end ->
    exists i x,
      idxmin_from best s = Some (i, Fin x) /\
      (In (i, Fin x) s \/ best = Some (i, Fin x)) /\
      (forall j y, In (j, Fin y) s -> x <= y) /\
      (forall b y, best = Some (b, Fin y) -> x <= y).
Proof.
  induction s as [| [i v] s IH]; intros Hfin best Hbest.
  - destruct best as [[b bv] |]; [| contradiction].
    destruct Hbest as (y & ->). exists b, y. cbn.
    split; [reflexivity |]. split; [now right |].
    split; [intros j z [] |].
    intros b' y' H. injection H as _ <-. Lra.lra.
  - destruct (Hfin i v (or_introl eq_refl)) as (x & ->).
    assert (Hfin' : forall j w, In (j, w) s -> exists z, w = Fin z)
      by (intros j w Hj; apply (Hfin j w); now right).
    destruct best as [[b bv] |].
    + destruct Hbest as (y & ->). cbn [idxmin_from flt_ltb].
      destruct (Rlt_dec x y) as [Hlt | Hge].
      * destruct (IH Hfin' (Some (i, Fin x))) as (i' & x' & Hres & Hin & Hmin & Hb);
          [now exists x |].
        exists i', x'. split; [exact Hres |].
        pose proof (Hb i x eq_refl) as Hx.
        split; [| split].
        -- destruct Hin as [Hin | Hin]; [left; now right |].
           injection Hin as <- <-. left. now left.
        -- intros j z [Hj | Hj]; [injection Hj as _ <-; exact Hx | apply (Hmin j z Hj)].
        -- intros b' y' H. injection H as _ <-. Lra.lra.
      * destruct (IH Hfin' (Some (b, Fin y))) as (i' & x' & Hres & Hin & Hmin & Hb);
          [now exists y |].
        exists i', x'. split; [exact Hres |].
        pose proof (Hb b y eq_refl) as Hy.
        split; [| split].
        -- destruct Hin as [Hin | Hin]; [left; now right | now right].
        -- intros j z [Hj | Hj]; [injection Hj as _ <-; Lra.lra | apply (Hmin j z Hj)].
        -- intros b' y' H. injection H as _ <-. exact Hy.
    + cbn [idxmin_from].
      destruct (IH Hfin' (Some (i, Fin x))) as (i' & x' & Hres & Hin & Hmin & Hb);
        [now exists x |].
      exists i', x'. split; [exact Hres |].
      pose proof (Hb i x eq_refl) as Hx.
      split; [| split].
      * destruct Hin as [Hin | Hin]; [left; now right |].
        injection Hin as <- <-. left. now left.
      * intros j z [Hj | Hj]; [injection Hj as _ <-; exact Hx | apply (Hmin j z Hj)].
      * intros b' y' H. discriminate H.
Qed.

Lemma find_label (df : DataFrame) (b : nat) (row : peer_row) :
  In (b, row) df ->
  (forall r1 r2, In (b, r1) df -> In (b, r2) df -> r1 = r2) ->
  find (fun p => Nat.eqb (fst p) b) df = Some (b, row).
Proof.
  intros Hin Huniq.
  destruct (find (fun p => Nat.eqb (fst p) b) df) as [[b' row'] |] eqn:E.
  - apply find_some in E. destruct E as [Hin' Heq].
    cbn in Heq. apply Nat.eqb_eq in Heq. subst b'.
    now rewrite (Huniq row' row Hin' Hin).
  - exfalso. pose proof (find_none _ _ E (b, row) Hin) as H.
    cbn in H. rewrite Nat.eqb_refl in H. discriminate.
Qed.

(** X30. The best-valued peer.  For any series of finite scores over the
    scored rows, [score.idxmin()] is the label of a row of the table that
    has a figure for every selected metric and whose score is the
    smallest of all, and [best_ticker] is that row's ticker; this holds
    of the scores the scoring computes. *)
Theorem best_peer_is_lowest_scored_row
    (metrics_table : list peer_row) (selected_metrics : list string)
    (s : list (nat * float)) :
  let df := pd_DataFrame metrics_table in
  map fst s = map fst (valid_rows df selected_metrics) ->
  s <> [] ->
  (forall i v, In (i, v) s -> exists z, v = Fin z) ->
  exists (best_idx : nat) (x : R) (row : peer_row),
    idxmin s = Some best_idx /\
    In (best_idx, Fin x) s /\
    (forall j y, In (j, Fin y) s -> x <= y) /\
    In (best_idx, row) df /\
    (forall m, In m selected_metrics -> at_column row m <> None) /\
    loc_ticker (clean_df df) best_idx = Some (Ticker row) /\
    (score_peers metrics_table selected_metrics = Some s ->
     best_ticker metrics_table selected_metrics = Some (Ticker row)).
Proof.
  intros df Hlabels Hne Hfin.
  set (valid := valid_rows df selected_metrics) in *.
  destruct (idxmin_from_spec s Hfin None Hne) as (b & x & Hres & Hin & Hmin & _).
  destruct Hin as [Hin | Hin]; [| discriminate].
  assert (Hlab : In b (map fst valid)).
  { rewrite <- Hlabels. apply in_map_iff.
    exists (b, Fin x). split; [reflexivity | exact Hin]. }
  apply in_map_iff in Hlab. destruct Hlab as ([b' cells] & Hb & Hcells).
  cbn in Hb. subst b'.
  apply valid_rows_spec in Hcells. destruct Hcells as (row & Hrow & _ & Hall).
  exists b, x, row.
  assert (Hidx : idxmin s = Some b) by (unfold idxmin; now rewrite Hres).
  assert (Hloc : loc_ticker (clean_df df) b = Some (Ticker row)).
  { unfold loc_ticker. rewrite (find_label _ b row Hrow); [reflexivity |].
    intros r1 r2 H1 H2.
    exact (pd_DataFrame_label_unique _ _ _ _
             (clean_df_incl _ _ _ H1) (clean_df_incl _ _ _ H2)). }
  split; [exact Hidx |]. split; [exact Hin |]. split; [exact Hmin |].
  split; [exact (clean_df_incl _ _ _ Hrow) |].
  split; [exact Hall |]. split; [exact Hloc |].
  intros Hs. unfold best_ticker. rewrite Hs, Hidx. exact Hloc.
Qed.

End BestPeer.

(** ** Statements of the properties proved above through their lemmas *)

(** X4. The Gordon Growth terminal value is undefined exactly when the
    discount rate equals the terminal growth; for every other pair of
    rates, a rate below the growth included, it is a number. *)
Theorem gordon_undefined_iff (fcf g r : Q) :
  Dcf.calculate_terminal_value_gordon fcf g r = None <-> r == g.
Proof. exact (gordon_none_iff fcf g r). Qed.

(** X6. The discounting engine yields no number exactly when the series
    is not empty and the discount rate is -100%. *)
Theorem discounted_cash_flows_undefined_iff (CF : list Q) (TV r : Q) :
  Dcf.discounted_cash_flows CF TV r = None <-> CF <> [] /\ (1 + r == 0)%Q.
Proof. exact (discounted_cash_flows_none_iff CF TV r). Qed.

(** X7. Projecting at the terminal growth itself and closing with the
    Gordon Growth terminal value gives a present value of
    [fcf * (1+g) / (r-g)], for every horizon of at least one period. *)
Theorem dcf_at_terminal_growth_is_perpetuity (fcf g r : Q) (n : Z) :
  (1 <= n)%Z -> ~ r == g -> ~ (1 + r == 0)%Q ->
  (last_cf <- Py.last_item (Dcf.project_cash_flows fcf g n) ;;
   terminal <- Dcf.calculate_terminal_value_gordon last_cf g r ;;
   Dcf.discounted_cash_flows (Dcf.project_cash_flows fcf g n) terminal r)
  =?= Some (fcf * (1 + g) / (r - g))%Q.
Proof. exact (dcf_gordon_at_own_growth fcf g r n). Qed.

Lemma dcf_at_terminal_growth_is_perpetuity_witness :
  (last_cf <- Py.last_item (Dcf.project_cash_flows 100 (4 # 100) 5) ;;
   terminal <- Dcf.calculate_terminal_value_gordon last_cf (4 # 100) (2 # 100) ;;
   Dcf.discounted_cash_flows (Dcf.project_cash_flows 100 (4 # 100) 5) terminal (2 # 100))
  =?= Some (100 * (1 + (4 # 100)) / ((2 # 100) - (4 # 100)))%Q.
Proof.
  apply dcf_at_terminal_growth_is_perpetuity;
    [intros E; discriminate E | discriminate | discriminate].
Defined.

(** X19. In the multi-ticker comparison a ticker gets the all-N/A row
    exactly when the provider fails for it or has no free cash flow;
    nothing else in the block can fail. *)
Theorem try_row_fails_iff
    (get_financials : string -> option App.financials) (t : string) :
  App.try_row get_financials t = None <->
  get_financials t = None \/
  exists f, get_financials t = Some f /\ App.latest_fcf f = None.
Proof. exact (try_row_none_iff get_financials t). Qed.

(** X28. Every aggregate score is a finite number: the scoring produces
    neither NaN nor an infinity, whatever the figures. *)
Theorem scores_are_finite (valid : Comps.Frame) (i : nat) (v : Comps.float) :
  In (i, v) (Comps.score valid) -> exists x : R, v = Comps.Fin x.
Proof. exact (score_entry_finite valid i v). Qed.

Lemma scores_are_finite_witness :
  exists v,
    In (1%nat, v)
       (Comps.score (Comps.valid_rows (Comps.pd_DataFrame Samples.peers_with_gap)
                                      ["EV/EBITDA"%string; "Forward P/E"%string])) /\
    exists x : R, v = Comps.Fin x.
Proof.
  eexists. split; [left; reflexivity |].
  apply (scores_are_finite
           (Comps.valid_rows (Comps.pd_DataFrame Samples.peers_with_gap)
                             ["EV/EBITDA"%string; "Forward P/E"%string])
           1%nat).
  left. reflexivity.
Defined.

Lemma best_peer_is_lowest_scored_row_witness :
  exists (best_idx : nat) (x : R) (row : Comps.peer_row),
    Comps.idxmin [(1%nat, Comps.Fin 2); (2%nat, Comps.Fin (-1))] = Some best_idx /\
    In (best_idx, Comps.Fin x) [(1%nat, Comps.Fin 2); (2%nat, Comps.Fin (-1))] /\
    In (best_idx, row) (Comps.pd_DataFrame Samples.peers_with_gap) /\
    Comps.loc_ticker (Comps.clean_df (Comps.pd_DataFrame Samples.peers_with_gap))
                     best_idx
    = Some (Comps.Ticker row).
Proof.
  destruct (best_peer_is_lowest_scored_row
              Samples.peers_with_gap
              ["EV/EBITDA"%string; "Forward P/E"%string]
              [(1%nat, Comps.Fin 2); (2%nat, Comps.Fin (-1))])
    as (best_idx & x & row & Hidx & Hin & _ & Hrow & _ & Hloc & _).
  - reflexivity.
  - discriminate.
  - intros i v [H | [H | []]]; injection H as _ <-; eexists; reflexivity.
  - exists best_idx, x, row. repeat split; assumption.
Defined.

Lemma comparison_row_values_witness :
  exists row,
    App.try_row SampleProvider.get_financials "AAPL"%string = Some row /\
    App.Ticker row = "AAPL"%string.
Proof.
  destruct (comparison_row_values SampleProvider.get_financials "AAPL"%string
              SampleProvider.aapl 100 eq_refl eq_refl) as (vg & ve & _ & _ & Hrow).
  eexists. split; [exact Hrow | reflexivity].
Defined.

Lemma exit_undervalued_implies_gordon_undervalued_witness :
  exists row,
    App.try_row SampleProvider.get_financials "AAPL"%string = Some row /\
    App.Valuation_Exit row = App.Label App.Undervalued /\
    App.Valuation_Gordon row = App.Label App.Undervalued.
Proof.
  eexists. split; [vm_compute; reflexivity |]. split; [reflexivity |].
  apply (exit_undervalued_implies_gordon_undervalued
           SampleProvider.get_financials "AAPL"%string SampleProvider.aapl 10);
    [reflexivity | reflexivity | reflexivity | vm_compute; reflexivity | reflexivity].
Defined.

Lemma no_price_is_labelled_overvalued_witness :
  exists row,
    App.try_row SampleProvider.get_financials "UNLISTED"%string = Some row /\
    App.Market_Price row = App.NotAvailable /\
    App.Valuation_Gordon row = App.Label App.Overvalued /\
    App.Valuation_Exit row = App.Label App.Overvalued.
Proof.
  eexists. split; [vm_compute; reflexivity |].
  apply (no_price_is_labelled_overvalued
           SampleProvider.get_financials "UNLISTED"%string SampleProvider.unlisted);
    [reflexivity | reflexivity | vm_compute; reflexivity].
Defined.
